(** * Investment ideas manager: the record store service

    A shallow embedding of [app/models.py] and [app/investment_service.py].

    The service is stateful Python: it reads the server clock, it talks to a
    relational table through a SQLModel session, and it receives its
    [InvestmentIdeaCreate] argument by reference.  The embedding threads all
    of that through one explicit [World] and a small state-and-exception
    monad [M]. *)

From Stdlib Require Import ZArith Lia Sorted Permutation.
From stdpp Require Import base option list strings.

Open Scope Z_scope.

(** ** Data model ([app/models.py]) *)

(** [datetime.date]: a day number. *)
Definition date := Z.
(** [datetime.datetime]: microseconds on the UTC time line. *)
Definition datetime := Z.

(** [class InvestmentStatus(str, Enum)] *)
Inductive InvestmentStatus := RESEARCHING | WATCHLIST | INVESTED | REJECTED.

Global Instance InvestmentStatus_eq_dec : EqDecision InvestmentStatus.
Proof. solve_decision. Defined.

(** A keyword argument of a pydantic constructor: left out, or passed.
    Pydantic records which fields were passed in [model_fields_set]. *)
Inductive kwarg (T : Type) := Omitted | Given (v : T).
Arguments Omitted {T}.
Arguments Given {T} v.

(** The value an attribute holds after construction. *)
Definition kw_default {T} (dflt : T) (k : kwarg T) : T :=
  match k with Omitted => dflt | Given v => v end.

(** [class InvestmentIdea(SQLModel, table=True)]: the session object.
    A table model is not validated on construction or on assignment, so any
    of its column attributes can hold [None]; [id] is [None] until the row
    has been inserted. *)
Module InvestmentIdea.
Record t := mk {
  id : option Z;
  title : option string;
  description : option string;
  idea_date : option date;
  status : option InvestmentStatus;
  notes : option string;
  created_at : datetime;
  updated_at : datetime }.
End InvestmentIdea.

(** One row of the table [investment_ideas].  None of the model's column
    types is [Optional], so every column is declared NOT NULL. *)
Module Row.
Record t := mk {
  id : Z;
  title : string;
  description : string;
  idea_date : date;
  status : InvestmentStatus;
  notes : string;
  created_at : datetime;
  updated_at : datetime }.
End Row.

(** [class InvestmentIdeaCreate(SQLModel, table=False)] *)
Module InvestmentIdeaCreate.
Record t := mk {
  title : string;
  description : string;
  idea_date : option date;
  status : InvestmentStatus;
  notes : string }.

(** What the field constraints ([max_length]) accept. *)
Definition valid (v : t) : Prop :=
  (String.length (title v) <= 200)%nat /\
  (String.length (description v) <= 2000)%nat /\
  (String.length (notes v) <= 5000)%nat.

Definition validb (v : t) : bool :=
  (String.length (title v) <=? 200)%nat &&
  (String.length (description v) <=? 2000)%nat &&
  (String.length (notes v) <=? 5000)%nat.

(** The constructor call
    [InvestmentIdeaCreate(title=.., description=.., idea_date=.., status=.., notes=..)]
    before validation: omitted keywords take the field defaults. *)
Definition of_kwargs (title : string) (description : kwarg string)
    (idea_date : kwarg (option date)) (status : kwarg InvestmentStatus)
    (notes : kwarg string) : t :=
  {| title := title;
     description := kw_default ""%string description;
     idea_date := kw_default None idea_date;
     status := kw_default RESEARCHING status;
     notes := kw_default ""%string notes |}.
End InvestmentIdeaCreate.

(** [class InvestmentIdeaUpdate(SQLModel, table=False)].  Every field is
    [Optional] with default [None]; a field is either unset ([Omitted], its
    attribute reads [None]) or set, possibly to [None] ([Given None]). *)
Module InvestmentIdeaUpdate.
Record t := mk {
  title : kwarg (option string);
  description : kwarg (option string);
  idea_date : kwarg (option date);
  status : kwarg (option InvestmentStatus);
  notes : kwarg (option string) }.

Definition fits (n : nat) (k : kwarg (option string)) : Prop :=
  match k with
  | Given (Some s) => (String.length s <= n)%nat
  | _ => True
  end.

(** What the field constraints ([max_length]) accept. *)
Definition valid (u : t) : Prop :=
  fits 200 (title u) /\ fits 2000 (description u) /\ fits 5000 (notes u).

(** [InvestmentIdeaUpdate()] *)
Definition empty : t :=
  {| title := Omitted; description := Omitted; idea_date := Omitted;
     status := Omitted; notes := Omitted |}.
End InvestmentIdeaUpdate.

(** [class InvestmentIdeaRead(SQLModel, table=False)] *)
Module InvestmentIdeaRead.
Record t := mk {
  id : Z;
  title : string;
  description : string;
  idea_date : date;
  status : InvestmentStatus;
  notes : string;
  created_at : datetime;
  updated_at : datetime }.
End InvestmentIdeaRead.

(** ** The world the service runs in *)

(** One reading of the server clock: what [date.today()] and what
    [datetime.utcnow()] would return at that moment. *)
Record Instant := { wall_date : date; utc : datetime }.

(** A reference to an [InvestmentIdeaCreate] object on the Python heap. *)
Definition loc := nat.

Record World := mkWorld {
  (** the rows of [investment_ideas], in insertion order *)
  table : list Row.t;
  (** the next value of the primary-key sequence *)
  id_seq : Z;
  (** whether the engine rejects a string longer than its VARCHAR(n) column *)
  varchar_enforced : bool;
  (** the [InvestmentIdeaCreate] objects callers hold references to *)
  heap : list InvestmentIdeaCreate.t;
  (** the successive readings of the server clock *)
  clock : nat -> Instant;
  (** how many readings have been taken *)
  reads : nat }.

Definition with_table (w : World) (t : list Row.t) : World :=
  {| table := t; id_seq := id_seq w; varchar_enforced := varchar_enforced w;
     heap := heap w; clock := clock w; reads := reads w |}.

Definition with_id_seq (w : World) (n : Z) : World :=
  {| table := table w; id_seq := n; varchar_enforced := varchar_enforced w;
     heap := heap w; clock := clock w; reads := reads w |}.

Definition with_heap (w : World) (h : list InvestmentIdeaCreate.t) : World :=
  {| table := table w; id_seq := id_seq w; varchar_enforced := varchar_enforced w;
     heap := h; clock := clock w; reads := reads w |}.

Definition tick (w : World) : World :=
  {| table := table w; id_seq := id_seq w; varchar_enforced := varchar_enforced w;
     heap := heap w; clock := clock w; reads := S (reads w) |}.

(** ** Exceptions and the monad *)

Inductive exn :=
| ValidationError   (* pydantic: a view rejects its input *)
| IntegrityError    (* the store: NOT NULL or primary key violated *)
| DataError         (* the store: value too long for its column *)
| ReferenceError.   (* a reference that designates no object *)

Inductive outcome (A : Type) := Return (a : A) | Raise (e : exn).
Arguments Return {A} a.
Arguments Raise {A} e.

Definition M (A : Type) : Type := World -> outcome A * World.

Definition ret {A} (a : A) : M A := fun w => (Return a, w).
Definition raise {A} (e : exn) : M A := fun w => (Raise e, w).
Definition lift {A} (o : outcome A) : M A := fun w => (o, w).
Definition bind {A B} (m : M A) (k : A -> M B) : M B :=
  fun w =>
    match m w with
    | (Return a, w') => k a w'
    | (Raise e, w') => (Raise e, w')
    end.

Notation "x <- m ;; k" := (bind m (fun x => k))
  (at level 90, m at next level, right associativity).
Notation "m ;;; k" := (bind m (fun _ => k))
  (at level 90, right associativity).

(** [[f(x) for x in xs]] where [f] may raise. *)
Fixpoint traverse {A B} (f : A -> outcome B) (xs : list A) : outcome (list B) :=
  match xs with
  | [] => Return []
  | x :: xs' =>
      match f x with
      | Raise e => Raise e
      | Return y =>
          match traverse f xs' with
          | Raise e => Raise e
          | Return ys => Return (y :: ys)
          end
      end
  end.

(** ** The clock *)

(** [date.today()] *)
Definition date_today : M date :=
  fun w => (Return (wall_date (clock w (reads w))), tick w).

(** [datetime.utcnow()] *)
Definition datetime_utcnow : M datetime :=
  fun w => (Return (utc (clock w (reads w))), tick w).

(** ** The caller's objects *)

(** Reading the object behind a reference. *)
Definition getobj (r : loc) : M InvestmentIdeaCreate.t :=
  fun w =>
    match heap w !! r with
    | Some v => (Return v, w)
    | None => (Raise ReferenceError, w)
    end.

(** [obj.idea_date = d]: assignment to an attribute of the object behind a
    reference; every holder of the reference sees it. *)
Definition set_idea_date (r : loc) (d : option date) : M unit :=
  fun w =>
    match heap w !! r with
    | Some v =>
        (Return tt,
         with_heap w
           (<[r := {| InvestmentIdeaCreate.title := InvestmentIdeaCreate.title v;
                      InvestmentIdeaCreate.description := InvestmentIdeaCreate.description v;
                      InvestmentIdeaCreate.idea_date := d;
                      InvestmentIdeaCreate.status := InvestmentIdeaCreate.status v;
                      InvestmentIdeaCreate.notes := InvestmentIdeaCreate.notes v |}]>
              (heap w)))
    | None => (Raise ReferenceError, w)
    end.

(** The end of a pydantic constructor call: the field constraints are
    checked, and the new object gets a reference of its own. *)
Definition construct (v : InvestmentIdeaCreate.t) : M loc :=
  fun w =>
    if InvestmentIdeaCreate.validb v
    then (Return (length (heap w)), with_heap w (heap w ++ [v]))
    else (Raise ValidationError, w).

(** [InvestmentIdeaCreate(title=.., description=.., idea_date=.., status=.., notes=..)] *)
Definition InvestmentIdeaCreate_new (title : string) (description : kwarg string)
    (idea_date : kwarg (option date)) (status : kwarg InvestmentStatus)
    (notes : kwarg string) : M loc :=
  construct (InvestmentIdeaCreate.of_kwargs title description idea_date status notes).

(** ** Between rows, session objects and views *)

(** Loading a row into a session object. *)
Definition of_row (r : Row.t) : InvestmentIdea.t :=
  {| InvestmentIdea.id := Some (Row.id r);
     InvestmentIdea.title := Some (Row.title r);
     InvestmentIdea.description := Some (Row.description r);
     InvestmentIdea.idea_date := Some (Row.idea_date r);
     InvestmentIdea.status := Some (Row.status r);
     InvestmentIdea.notes := Some (Row.notes r);
     InvestmentIdea.created_at := Row.created_at r;
     InvestmentIdea.updated_at := Row.updated_at r |}.

Definition too_long (n : nat) (s : string) : bool := (n <? String.length s)%nat.

(** Modelled from the spec: the store behind [app.database] (the module is
    not part of the sources).  Writing a session object as a row with primary
    key [i]: a [None] in a NOT NULL column is an integrity error; a string
    longer than its column is a data error on an engine that enforces
    VARCHAR lengths, and is stored as it is on one that does not. *)
Definition flush (enforce : bool) (i : Z) (e : InvestmentIdea.t) : outcome Row.t :=
  match InvestmentIdea.title e, InvestmentIdea.description e,
        InvestmentIdea.idea_date e, InvestmentIdea.status e,
        InvestmentIdea.notes e with
  | Some t, Some d, Some dt, Some s, Some n =>
      if enforce && (too_long 200 t || too_long 2000 d || too_long 5000 n)
      then Raise DataError
      else Return {| Row.id := i; Row.title := t; Row.description := d;
                     Row.idea_date := dt; Row.status := s; Row.notes := n;
                     Row.created_at := InvestmentIdea.created_at e;
                     Row.updated_at := InvestmentIdea.updated_at e |}
  | _, _, _, _, _ => Raise IntegrityError
  end.

(** [InvestmentIdeaRead.model_validate(idea)]: every field of the Read view is
    required and not [Optional]. *)
Definition model_validate (e : InvestmentIdea.t) : outcome InvestmentIdeaRead.t :=
  match InvestmentIdea.id e, InvestmentIdea.title e, InvestmentIdea.description e,
        InvestmentIdea.idea_date e, InvestmentIdea.status e,
        InvestmentIdea.notes e with
  | Some i, Some t, Some d, Some dt, Some s, Some n =>
      Return {| InvestmentIdeaRead.id := i; InvestmentIdeaRead.title := t;
                InvestmentIdeaRead.description := d;
                InvestmentIdeaRead.idea_date := dt;
                InvestmentIdeaRead.status := s; InvestmentIdeaRead.notes := n;
                InvestmentIdeaRead.created_at := InvestmentIdea.created_at e;
                InvestmentIdeaRead.updated_at := InvestmentIdea.updated_at e |}
  | _, _, _, _, _, _ => Raise ValidationError
  end.

(** The Read view of a stored row. *)
Definition read_of_row (r : Row.t) : InvestmentIdeaRead.t :=
  {| InvestmentIdeaRead.id := Row.id r; InvestmentIdeaRead.title := Row.title r;
     InvestmentIdeaRead.description := Row.description r;
     InvestmentIdeaRead.idea_date := Row.idea_date r;
     InvestmentIdeaRead.status := Row.status r;
     InvestmentIdeaRead.notes := Row.notes r;
     InvestmentIdeaRead.created_at := Row.created_at r;
     InvestmentIdeaRead.updated_at := Row.updated_at r |}.

(** ** The session *)

Definition has_id (i : Z) (r : Row.t) : bool := Row.id r =? i.

(** [ORDER BY created_at DESC]: insertion into a descending list.  Rows with
    equal keys keep the order in which they were met (the engine leaves that
    order open). *)
Fixpoint insert_desc (r : Row.t) (l : list Row.t) : list Row.t :=
  match l with
  | [] => [r]
  | x :: l' =>
      if Row.created_at x <=? Row.created_at r
      then r :: l
      else x :: insert_desc r l'
  end.

Definition order_by_created_at_desc (l : list Row.t) : list Row.t :=
  foldr insert_desc [] l.

(** Modelled from the spec: [session.get(InvestmentIdea, idea_id)] on the
    store behind [app.database]: the row with that primary key, or [None]. *)
Definition session_get (idea_id : Z) : M (option InvestmentIdea.t) :=
  fun w => (Return (of_row <$> List.find (has_id idea_id) (table w)), w).

(** Modelled from the spec: [session.add(x); session.commit();
    session.refresh(x)] on the store behind [app.database].  An object that
    has no [id] yet is inserted under the next value of the primary-key
    sequence; an object loaded from the table replaces its row.  A failed
    commit leaves the table as it was.  The refreshed object is the row read
    back. *)
Definition session_add_commit_refresh (x : InvestmentIdea.t) : M InvestmentIdea.t :=
  fun w =>
    match InvestmentIdea.id x with
    | None =>
        match flush (varchar_enforced w) (id_seq w) x with
        | Return row =>
            (Return (of_row row),
             with_id_seq (with_table w (table w ++ [row])) (id_seq w + 1))
        | Raise e => (Raise e, w)
        end
    | Some i =>
        match flush (varchar_enforced w) i x with
        | Return row =>
            (Return (of_row row),
             with_table w (map (fun r => if has_id i r then row else r) (table w)))
        | Raise e => (Raise e, w)
        end
    end.

(** Modelled from the spec: [session.delete(x); session.commit()] on the
    store behind [app.database]: the row with the object's primary key goes. *)
Definition session_delete_commit (x : InvestmentIdea.t) : M unit :=
  fun w =>
    match InvestmentIdea.id x with
    | Some i => (Return tt, with_table w (List.filter (fun r => negb (has_id i r)) (table w)))
    | None => (Return tt, w)
    end.

(** Modelled from the spec:
    [session.exec(select(InvestmentIdea).where(p).order_by(desc(InvestmentIdea.created_at))).all()]
    on the store behind [app.database]. *)
Definition session_exec_select (p : Row.t -> bool) : M (list InvestmentIdea.t) :=
  fun w => (Return (map of_row (order_by_created_at_desc (List.filter p (table w)))), w).

(** ** Partial updates *)

(** One entry of [update_data.model_dump(exclude_unset=True)]: a field name
    together with the value the Update view holds for it. *)
Inductive item :=
| Title (v : option string)
| Description (v : option string)
| IdeaDate (v : option date)
| Status (v : option InvestmentStatus)
| Notes (v : option string).

Definition dump_field {T} (mk : option T -> item) (k : kwarg (option T)) : list item :=
  match k with
  | Omitted => []
  | Given v => [mk v]
  end.

(** [update_data.model_dump(exclude_unset=True).items()]: the fields that
    were set when the view was built, in declaration order, each with its
    value; a field set to [None] is among them. *)
Definition model_dump_exclude_unset (u : InvestmentIdeaUpdate.t) : list item :=
  dump_field Title (InvestmentIdeaUpdate.title u) ++
  dump_field Description (InvestmentIdeaUpdate.description u) ++
  dump_field IdeaDate (InvestmentIdeaUpdate.idea_date u) ++
  dump_field Status (InvestmentIdeaUpdate.status u) ++
  dump_field Notes (InvestmentIdeaUpdate.notes u).

(** [setattr(idea, field, value)] *)
Definition setattr (idea : InvestmentIdea.t) (it : item) : InvestmentIdea.t :=
  let '(InvestmentIdea.mk i t d dt s n c u) := idea in
  match it with
  | Title v => InvestmentIdea.mk i v d dt s n c u
  | Description v => InvestmentIdea.mk i t v dt s n c u
  | IdeaDate v => InvestmentIdea.mk i t d v s n c u
  | Status v => InvestmentIdea.mk i t d dt v n c u
  | Notes v => InvestmentIdea.mk i t d dt s v c u
  end.

(** [idea.updated_at = value] *)
Definition set_updated_at (idea : InvestmentIdea.t) (now : datetime) : InvestmentIdea.t :=
  let '(InvestmentIdea.mk i t d dt s n c _) := idea in
  InvestmentIdea.mk i t d dt s n c now.

(** [InvestmentIdea(title=.., description=.., idea_date=.., status=.., notes=..)]:
    [id] takes its default [None]; [created_at] and [updated_at] each call
    their own [default_factory=datetime.utcnow], in declaration order. *)
Definition InvestmentIdea_new (title description : string) (idea_date : option date)
    (status : InvestmentStatus) (notes : string) : M InvestmentIdea.t :=
  created <- datetime_utcnow ;;
  updated <- datetime_utcnow ;;
  ret {| InvestmentIdea.id := None;
         InvestmentIdea.title := Some title;
         InvestmentIdea.description := Some description;
         InvestmentIdea.idea_date := idea_date;
         InvestmentIdea.status := Some status;
         InvestmentIdea.notes := Some notes;
         InvestmentIdea.created_at := created;
         InvestmentIdea.updated_at := updated |}.

(** ** The service ([app/investment_service.py]) *)

Module InvestmentService.

Definition create_investment_idea (idea_data : loc) : M InvestmentIdeaRead.t :=
  v <- getobj idea_data ;;
  (match InvestmentIdeaCreate.idea_date v with
   | None => today <- date_today ;; set_idea_date idea_data (Some today)
   | Some _ => ret tt
   end) ;;;
  v <- getobj idea_data ;;
  investment_idea <-
    InvestmentIdea_new (InvestmentIdeaCreate.title v)
      (InvestmentIdeaCreate.description v) (InvestmentIdeaCreate.idea_date v)
      (InvestmentIdeaCreate.status v) (InvestmentIdeaCreate.notes v) ;;
  investment_idea <- session_add_commit_refresh investment_idea ;;
  lift (model_validate investment_idea).

Definition get_all_investment_ideas : M (list InvestmentIdeaRead.t) :=
  ideas <- session_exec_select (fun _ => true) ;;
  lift (traverse model_validate ideas).

Definition get_investment_idea_by_id (idea_id : Z) : M (option InvestmentIdeaRead.t) :=
  idea <- session_get idea_id ;;
  match idea with
  | None => ret None
  | Some idea => r <- lift (model_validate idea) ;; ret (Some r)
  end.

Definition update_investment_idea (idea_id : Z) (update_data : InvestmentIdeaUpdate.t)
    : M (option InvestmentIdeaRead.t) :=
  idea <- session_get idea_id ;;
  match idea with
  | None => ret None
  | Some idea =>
      let idea := fold_left setattr (model_dump_exclude_unset update_data) idea in
      now <- datetime_utcnow ;;
      let idea := set_updated_at idea now in
      idea <- session_add_commit_refresh idea ;;
      r <- lift (model_validate idea) ;;
      ret (Some r)
  end.

Definition delete_investment_idea (idea_id : Z) : M bool :=
  idea <- session_get idea_id ;;
  match idea with
  | None => ret false
  | Some idea => session_delete_commit idea ;;; ret true
  end.

Definition get_ideas_by_status (status : InvestmentStatus) : M (list InvestmentIdeaRead.t) :=
  ideas <- session_exec_select (fun r => bool_decide (Row.status r = status)) ;;
  lift (traverse model_validate ideas).

End InvestmentService.

Import InvestmentService.

(** ** Worked runs *)

Definition clock0 : nat -> Instant :=
  fun n => {| wall_date := 20000; utc := 1000 + Z.of_nat n |}.

Definition world0 : World :=
  {| table := []; id_seq := 1; varchar_enforced := true; heap := [];
     clock := clock0; reads := 0 |}.

(** ** Vocabulary of the statements *)

(** The primary keys in use. *)
Definition ids (w : World) : list Z := map Row.id (table w).

(** A row as the store holds it passes the length check of its engine. *)
Definition row_fits (enforce : bool) (r : Row.t) : Prop :=
  enforce = true ->
  (String.length (Row.title r) <= 200)%nat /\
  (String.length (Row.description r) <= 2000)%nat /\
  (String.length (Row.notes r) <= 5000)%nat.


(** Successive readings of the clock never go back. *)
Definition clock_monotone (w : World) : Prop :=
  forall n, utc (clock w n) <= utc (clock w (S n)).

(** Successive readings of the clock always advance. *)
Definition clock_advances (w : World) : Prop :=
  forall n, utc (clock w n) < utc (clock w (S n)).

(** Every stored row was created no later than it was last updated, and
    last updated no later than the next reading of the clock. *)
Definition on_time (now : datetime) (r : Row.t) : Prop :=
  Row.created_at r <= Row.updated_at r /\ Row.updated_at r <= now.

Definition timely (w : World) : Prop :=
  Forall (on_time (utc (clock w (reads w)))) (table w).

(** What the store guarantees of its rows: primary keys are unique and below
    the sequence, and every row fits its columns. *)
Definition store_ok (w : World) : Prop :=
  NoDup (ids w) /\
  Forall (fun r => Row.id r < id_seq w) (table w) /\
  Forall (row_fits (varchar_enforced w)) (table w).

(** "Created at" descending, on rows and on Read views. *)
Definition row_newer_first (a b : Row.t) : Prop :=
  Row.created_at b <= Row.created_at a.

Definition newer_first (a b : InvestmentIdeaRead.t) : Prop :=
  InvestmentIdeaRead.created_at b <= InvestmentIdeaRead.created_at a.

(** ** Callers *)

(** What a caller can ask for: building a Create view, or one of the six
    operations of the service. *)
Inductive request :=
| NewCreate (title : string) (description : kwarg string)
    (idea_date : kwarg (option date)) (status : kwarg InvestmentStatus)
    (notes : kwarg string)
| Create (idea_data : loc)
| GetAll
| GetById (idea_id : Z)
| Update (idea_id : Z) (update_data : InvestmentIdeaUpdate.t)
| Delete (idea_id : Z)
| GetByStatus (status : InvestmentStatus).

(** The world after a request, whatever it returned or raised. *)
Definition serve (w : World) (q : request) : World :=
  match q with
  | NewCreate t d dt s n => snd (InvestmentIdeaCreate_new t d dt s n w)
  | Create r => snd (create_investment_idea r w)
  | GetAll => snd (get_all_investment_ideas w)
  | GetById i => snd (get_investment_idea_by_id i w)
  | Update i u => snd (update_investment_idea i u w)
  | Delete i => snd (delete_investment_idea i w)
  | GetByStatus s => snd (get_ideas_by_status s w)
  end.

Definition serve_all (w : World) (qs : list request) : World :=
  fold_left serve qs w.

(** [InvestmentService.create_investment_idea(InvestmentIdeaCreate(...))],
    the way the tests and the page call the service. *)
Definition submit (v : InvestmentIdeaCreate.t) : M InvestmentIdeaRead.t :=
  idea_data <- construct v ;;
  create_investment_idea idea_data.

Fixpoint submit_all (vs : list InvestmentIdeaCreate.t) : M (list InvestmentIdeaRead.t) :=
  match vs with
  | [] => ret []
  | v :: vs' => r <- submit v ;; rs <- submit_all vs' ;; ret (r :: rs)
  end.

(** ** More worked runs *)

(** A store holding one idea, created at 1001 and never updated since. *)
Definition row1 : Row.t :=
  {| Row.id := 1; Row.title := "Original Title";
     Row.description := "Original Description"; Row.idea_date := 20000;
     Row.status := RESEARCHING; Row.notes := "Original Notes";
     Row.created_at := 1001; Row.updated_at := 1002 |}.

Definition world1 : World :=
  {| table := [row1]; id_seq := 2; varchar_enforced := true; heap := [];
     clock := clock0; reads := 3 |}.

(** [InvestmentIdeaCreate(title="Tesla Stock Analysis")] held at reference 0. *)
Definition tesla : InvestmentIdeaCreate.t :=
  InvestmentIdeaCreate.of_kwargs "Tesla Stock Analysis" Omitted Omitted Omitted Omitted.

Definition world_tesla : World :=
  {| table := []; id_seq := 1; varchar_enforced := true; heap := [tesla];
     clock := clock0; reads := 0 |}.

(** ** Closed forms used in the proofs *)

(** The Create view once its date has been filled in. *)
Definition with_idea_date (v : InvestmentIdeaCreate.t) (d : date) : InvestmentIdeaCreate.t :=
  {| InvestmentIdeaCreate.title := InvestmentIdeaCreate.title v;
     InvestmentIdeaCreate.description := InvestmentIdeaCreate.description v;
     InvestmentIdeaCreate.idea_date := Some d;
     InvestmentIdeaCreate.status := InvestmentIdeaCreate.status v;
     InvestmentIdeaCreate.notes := InvestmentIdeaCreate.notes v |}.

(** How many clock readings the date default takes. *)
Definition date_reads (v : InvestmentIdeaCreate.t) : nat :=
  match InvestmentIdeaCreate.idea_date v with None => 1 | Some _ => 0 end.

(** "Created at" strictly ascending, on rows. *)
Definition row_older (a b : Row.t) : Prop := Row.created_at a < Row.created_at b.

(** The [WHERE] clause of [get_ideas_by_status], on rows and on Read views. *)
Definition row_has_status (s : InvestmentStatus) (r : Row.t) : bool :=
  bool_decide (Row.status r = s).


(** The three views of the ordering test. *)
Definition first_idea : InvestmentIdeaCreate.t :=
  InvestmentIdeaCreate.of_kwargs "First Idea" Omitted Omitted Omitted Omitted.
Definition second_idea : InvestmentIdeaCreate.t :=
  InvestmentIdeaCreate.of_kwargs "Second Idea" Omitted Omitted Omitted Omitted.
Definition third_idea : InvestmentIdeaCreate.t :=
  InvestmentIdeaCreate.of_kwargs "Third Idea" Omitted Omitted Omitted Omitted.

(** What an attribute holds once the dump of one Update field has been
    assigned: the old value for a field left unset, the new one otherwise. *)
Definition merged {T} (k : kwarg (option T)) (old : option T) : option T :=
  match k with Omitted => old | Given v => v end.

(** The Update view says [None] for a field it has set. *)
Definition sets_None (u : InvestmentIdeaUpdate.t) : Prop :=
  InvestmentIdeaUpdate.title u = Given None \/
  InvestmentIdeaUpdate.description u = Given None \/
  InvestmentIdeaUpdate.idea_date u = Given None \/
  InvestmentIdeaUpdate.status u = Given None \/
  InvestmentIdeaUpdate.notes u = Given None.

(** [InvestmentIdeaUpdate(title="Updated Title", description=None)] *)
Definition update_title_and_None : InvestmentIdeaUpdate.t :=
  {| InvestmentIdeaUpdate.title := Given (Some "Updated Title"%string);
     InvestmentIdeaUpdate.description := Given None;
     InvestmentIdeaUpdate.idea_date := Omitted;
     InvestmentIdeaUpdate.status := Omitted;
     InvestmentIdeaUpdate.notes := Omitted |}.

(** [InvestmentIdeaUpdate(status=InvestmentStatus.INVESTED)] *)
Definition update_status_only : InvestmentIdeaUpdate.t :=
  {| InvestmentIdeaUpdate.title := Omitted;
     InvestmentIdeaUpdate.description := Omitted;
     InvestmentIdeaUpdate.idea_date := Omitted;
     InvestmentIdeaUpdate.status := Given (Some INVESTED);
     InvestmentIdeaUpdate.notes := Omitted |}.

(** The session object that an update hands to the commit. *)
Definition pending (u : InvestmentIdeaUpdate.t) (old : Row.t) (now : datetime)
    : InvestmentIdea.t :=
  {| InvestmentIdea.id := Some (Row.id old);
     InvestmentIdea.title := merged (InvestmentIdeaUpdate.title u) (Some (Row.title old));
     InvestmentIdea.description :=
       merged (InvestmentIdeaUpdate.description u) (Some (Row.description old));
     InvestmentIdea.idea_date :=
       merged (InvestmentIdeaUpdate.idea_date u) (Some (Row.idea_date old));
     InvestmentIdea.status := merged (InvestmentIdeaUpdate.status u) (Some (Row.status old));
     InvestmentIdea.notes := merged (InvestmentIdeaUpdate.notes u) (Some (Row.notes old));
     InvestmentIdea.created_at := Row.created_at old;
     InvestmentIdea.updated_at := now |}.

(** ** Other clocks *)

(** A clock that shows the same time at every reading. *)
Definition clock_still : nat -> Instant :=
  fun _ => {| wall_date := 20000; utc := 1000 |}.

Definition world_still : World :=
  {| table := []; id_seq := 1; varchar_enforced := true; heap := [];
     clock := clock_still; reads := 0 |}.

(** A clock that is set back after its second reading. *)
Definition clock_set_back : nat -> Instant :=
  fun n => {| wall_date := 20000;
              utc := if Nat.eqb n 1 then 5001 else 1000 + Z.of_nat n |}.

(** [InvestmentIdeaCreate(title="Tesla Stock Analysis")] held at reference 0,
    under the clock that is set back. *)
Definition world_set_back : World :=
  {| table := []; id_seq := 1; varchar_enforced := true; heap := [tesla];
     clock := clock_set_back; reads := 0 |}.

From Stdlib Require Import Ascii.

(** ** Further worked runs *)

(** A second stored idea, on the watchlist, created after the first. *)
Definition row2 : Row.t :=
  {| Row.id := 2; Row.title := "Watchlist Idea"; Row.description := "";
     Row.idea_date := 20001; Row.status := WATCHLIST; Row.notes := "";
     Row.created_at := 1004; Row.updated_at := 1005 |}.

Definition world2 : World :=
  {| table := [row1; row2]; id_seq := 3; varchar_enforced := true; heap := [];
     clock := clock0; reads := 6 |}.

(** ["A" * n] *)
Fixpoint times (c : Ascii.ascii) (n : nat) : string :=
  match n with
  | O => EmptyString
  | S n' => String c (times c n')
  end.

(** The view of the long-strings test:
    [InvestmentIdeaCreate(title="A" * 200, description="B" * 2000, notes="C" * 5000)]. *)
Definition long_idea : InvestmentIdeaCreate.t :=
  InvestmentIdeaCreate.of_kwargs (times "A"%char 200) (Given (times "B"%char 2000)) Omitted
    Omitted (Given (times "C"%char 5000)).

(** Replacing the entity of one id in a listing. *)
Definition replace_read (i : Z) (r : InvestmentIdeaRead.t) (x : InvestmentIdeaRead.t)
    : InvestmentIdeaRead.t :=
  if InvestmentIdeaRead.id x =? i then r else x.

(** Striking the entity of one id out of a listing. *)
Definition other_id (i : Z) (x : InvestmentIdeaRead.t) : bool :=
  negb (InvestmentIdeaRead.id x =? i).

(** What updating idea 1 of [world2] with the status alone returns. *)
Definition read1_invested : InvestmentIdeaRead.t :=
  {| InvestmentIdeaRead.id := 1; InvestmentIdeaRead.title := "Original Title";
     InvestmentIdeaRead.description := "Original Description";
     InvestmentIdeaRead.idea_date := 20000; InvestmentIdeaRead.status := INVESTED;
     InvestmentIdeaRead.notes := "Original Notes";
     InvestmentIdeaRead.created_at := 1001; InvestmentIdeaRead.updated_at := 1006 |}.

(** The view of the full-fields test, held at reference 0. *)
Definition apple : InvestmentIdeaCreate.t :=
  InvestmentIdeaCreate.of_kwargs "Apple AAPL Analysis"
    (Given "Looking into Apple's growth potential in AI"%string)
    (Given (Some 19737)) (Given WATCHLIST)
    (Given "P/E ratio looks attractive at current levels"%string).

Definition world_apple : World :=
  {| table := []; id_seq := 1; varchar_enforced := true; heap := [apple];
     clock := clock0; reads := 0 |}.

(** * The page ([app/investment_ui.py]) *)

From stdpp Require pretty.

(** ** The status as the page shows and reads it *)

(** [status.value]: the string of a member of [InvestmentStatus]. *)
Definition value (s : InvestmentStatus) : string :=
  match s with
  | RESEARCHING => "Researching"
  | WATCHLIST => "Watchlist"
  | INVESTED => "Invested"
  | REJECTED => "Rejected"
  end.

(** The members of [InvestmentStatus], in declaration order. *)
Definition statuses : list InvestmentStatus := [RESEARCHING; WATCHLIST; INVESTED; REJECTED].

(** [InvestmentStatus(v)]: the member whose value is [v]; Python raises
    [ValueError] when there is none. *)
Definition InvestmentStatus_of_value (v : string) : option InvestmentStatus :=
  List.find (fun s => String.eqb (value s) v) statuses.

(** [["All"] + [status.value for status in InvestmentStatus]]: what the
    filter offers. *)
Definition filter_options : list string := "All"%string :: map value statuses.

(** ** What a handler does to the page *)

(** What [except Exception as e] catches in a handler: an exception of the
    service or of a view, or the [ValueError] of a string that is no date or
    no status. *)
Inductive raised := Service (e : exn) | ValueError.

(** [type=] of [ui.notify]. *)
Inductive kind := positive | negative | warning.

Inductive action :=
| Notify (text : string) (type : kind)       (* ui.notify(text, type=..) *)
| LogError (prefix : string) (e : raised)    (* logger.error(f"{prefix}{e}") *)
| NotifyError (prefix : string) (e : raised) (* ui.notify(f"{prefix}{str(e)}", type="negative") *)
| ClearForm (today : date)                   (* the five set_value calls of save_idea *)
| CloseDialog                                (* dialog.close() *)
| Reload                                     (* ui.navigate.reload() *)
| OpenEditDialog (idea : InvestmentIdeaRead.t)   (* the edit dialog, filled from the idea *)
| OpenDeleteDialog (title : string)          (* the confirmation dialog *)
| ClearContainer                             (* ideas_container.clear() *)
| Label (text : string)                      (* ui.label(text) *)
| EmptyState                                 (* display_empty_state() *)
| Card (idea : InvestmentIdeaRead.t).        (* create_idea_card(idea) *)

(** The body of a [try]: the service monad with [ValueError] added. *)
Definition U (A : Type) : Type := World -> (A + raised) * World.

Definition uret {A} (a : A) : U A := fun w => (inl a, w).
Definition uraise {A} (e : raised) : U A := fun w => (inr e, w).
Definition ubind {A B} (m : U A) (k : A -> U B) : U B :=
  fun w =>
    match m w with
    | (inl a, w') => k a w'
    | (inr e, w') => (inr e, w')
    end.

(** A call into the service or a view from a handler. *)
Definition call {A} (m : M A) : U A :=
  fun w =>
    match m w with
    | (Return a, w') => (inl a, w')
    | (Raise e, w') => (inr (Service e), w')
    end.

Notation "x <~ m ;; k" := (ubind m (fun x => k))
  (at level 90, m at next level, right associativity).

(** The value of an input widget: a string, or [None]. *)
Definition widget := option string.

(** [not v] *)
Definition falsy (v : widget) : bool :=
  match v with
  | None => true
  | Some s => bool_decide (s = ""%string)
  end.

(** [v or ""] *)
Definition or_empty (v : widget) : string :=
  match v with
  | None => ""%string
  | Some s => s
  end.

(** [not title_input.value or not title_input.value.strip()], with
    [str.strip] as the parameter [strip]. *)
Definition blank (strip : string -> string) (title_input : widget) : bool :=
  falsy title_input || falsy (Some (strip (or_empty title_input))).

(** [date.fromisoformat(date_input.value) if date_input.value else <otherwise>],
    with [date.fromisoformat] as the parameter [fromisoformat] ([None] where
    Python raises [ValueError]). *)
Definition read_date (fromisoformat : string -> option date) (date_input : widget)
    (otherwise : U date) : U date :=
  if falsy date_input then otherwise
  else match fromisoformat (or_empty date_input) with
       | Some d => uret d
       | None => uraise ValueError
       end.

(** [InvestmentStatus(status_select.value)] *)
Definition read_status (status_select : widget) : U InvestmentStatus :=
  match status_select with
  | Some v =>
      match InvestmentStatus_of_value v with
      | Some s => uret s
      | None => uraise ValueError
      end
  | None => uraise ValueError
  end.

Definition update_validb (u : InvestmentIdeaUpdate.t) : bool :=
  let fitsb n k :=
    match k with
    | Given (Some s) => (String.length s <=? n)%nat
    | _ => true
    end in
  fitsb 200%nat (InvestmentIdeaUpdate.title u) &&
  fitsb 2000%nat (InvestmentIdeaUpdate.description u) &&
  fitsb 5000%nat (InvestmentIdeaUpdate.notes u).

(** [InvestmentIdeaUpdate(title=.., description=.., idea_date=.., status=.., notes=..)]:
    the field constraints are checked when the view is built. *)
Definition InvestmentIdeaUpdate_new (title description : option string)
    (idea_date : option date) (status : option InvestmentStatus) (notes : option string)
    : M InvestmentIdeaUpdate.t :=
  let u := {| InvestmentIdeaUpdate.title := Given title;
              InvestmentIdeaUpdate.description := Given description;
              InvestmentIdeaUpdate.idea_date := Given idea_date;
              InvestmentIdeaUpdate.status := Given status;
              InvestmentIdeaUpdate.notes := Given notes |} in
  if update_validb u then ret u else raise ValidationError.

(** ** The handlers *)


(** [save_changes()] of the edit dialog opened for [idea_id] on [idea]. *)
Definition save_changes (strip : string -> string) (fromisoformat : string -> option date)
    (idea_id : Z) (idea : InvestmentIdeaRead.t)
    (title_input description_input date_input status_select notes_input : widget)
    : World -> list action * World :=
  fun w =>
    if blank strip title_input
    then ([Notify "Please enter a title" negative], w)
    else
      match (idea_date <~ read_date fromisoformat date_input
                            (uret (InvestmentIdeaRead.idea_date idea)) ;;
             status <~ read_status status_select ;;
             update_data <~ call (InvestmentIdeaUpdate_new
                                    (Some (strip (or_empty title_input)))
                                    (Some (or_empty description_input))
                                    (Some idea_date) (Some status)
                                    (Some (or_empty notes_input))) ;;
             call (update_investment_idea idea_id update_data)) w with
      | (inl (Some _), w') =>
          ([Notify "Investment idea updated successfully!" positive; CloseDialog; Reload], w')
      | (inl None, w') => ([Notify "Failed to update investment idea" negative], w')
      | (inr e, w') =>
          ([LogError "Error updating investment idea: " e;
            NotifyError "Error updating idea: " e], w')
      end.

(** [show_edit_dialog(idea_id)], up to the opening of the dialog. *)
Definition show_edit_dialog (idea_id : Z) : World -> list action * World :=
  fun w =>
    match call (get_investment_idea_by_id idea_id) w with
    | (inl None, w') => ([Notify "Investment idea not found" negative], w')
    | (inl (Some idea), w') => ([OpenEditDialog idea], w')
    | (inr e, w') =>
        ([LogError "Error showing edit dialog: " e;
          NotifyError "Error opening edit dialog: " e], w')
    end.

(** [show_delete_dialog(idea_id)], up to the opening of the dialog. *)
Definition show_delete_dialog (idea_id : Z) : World -> list action * World :=
  fun w =>
    match call (get_investment_idea_by_id idea_id) w with
    | (inl None, w') => ([Notify "Investment idea not found" negative], w')
    | (inl (Some idea), w') => ([OpenDeleteDialog (InvestmentIdeaRead.title idea)], w')
    | (inr e, w') =>
        ([LogError "Error showing delete dialog: " e;
          NotifyError "Error opening delete dialog: " e], w')
    end.

(** [confirm_delete()] of the dialog opened for [idea_id]. *)
Definition confirm_delete (idea_id : Z) : World -> list action * World :=
  fun w =>
    match call (delete_investment_idea idea_id) w with
    | (inl true, w') =>
        ([Notify "Investment idea deleted successfully" warning; CloseDialog; Reload], w')
    | (inl false, w') => ([Notify "Failed to delete investment idea" negative], w')
    | (inr e, w') =>
        ([LogError "Error deleting investment idea: " e;
          NotifyError "Error deleting idea: " e], w')
    end.

(** The count line and the cards, or the empty state. *)
Definition display (ideas : list InvestmentIdeaRead.t) : list action :=
  Label ("Showing " +:+ pretty.pretty (length ideas) +:+ " ideas") ::
  match ideas with
  | [] => [EmptyState]
  | _ => map Card ideas
  end.

(** [apply_filter()] of [create_ideas_list], on the value the filter holds. *)
Definition apply_filter (current_filter : widget) : World -> list action * World :=
  fun w =>
    match (if bool_decide (current_filter = Some "All"%string)
           then call get_all_investment_ideas
           else status <~ read_status current_filter ;;
                call (get_ideas_by_status status)) w with
    | (inl filtered_ideas, w') => (ClearContainer :: display filtered_ideas, w')
    | (inr e, w') =>
        ([LogError "Error applying filter: " e;
          NotifyError "Error filtering ideas: " e], w')
    end.

(** ** Worked runs of the page *)

(** A [strip] for the worked runs: blanks go, at both ends. *)
Fixpoint lstrip_blanks (s : string) : string :=
  match s with
  | String " " s' => lstrip_blanks s'
  | _ => s
  end.

Definition strip_blanks (s : string) : string :=
  String.rev (lstrip_blanks (String.rev (lstrip_blanks s))).

(** A [fromisoformat] for the worked runs: it knows one day. *)
Definition one_day (s : string) : option date :=
  if String.eqb s "2024-01-15" then Some 19737 else None.

(** The cards among what a handler shows. *)
Definition is_card (a : action) : bool :=
  match a with Card _ => true | _ => false end.

(** The values the five widgets of the edit dialog are given when it opens
    on [idea]: [idea.title], [idea.description], [idea.idea_date.isoformat()],
    [idea.status.value], [idea.notes], with [date.isoformat] as the parameter
    [isoformat]. *)
Definition dialog_title (idea : InvestmentIdeaRead.t) : widget :=
  Some (InvestmentIdeaRead.title idea).
Definition dialog_description (idea : InvestmentIdeaRead.t) : widget :=
  Some (InvestmentIdeaRead.description idea).
Definition dialog_date (isoformat : date -> string) (idea : InvestmentIdeaRead.t) : widget :=
  Some (isoformat (InvestmentIdeaRead.idea_date idea)).
Definition dialog_status (idea : InvestmentIdeaRead.t) : widget :=
  Some (value (InvestmentIdeaRead.status idea)).
Definition dialog_notes (idea : InvestmentIdeaRead.t) : widget :=
  Some (InvestmentIdeaRead.notes idea).

(** An [isoformat] for the worked runs, the other way round from [one_day]. *)
Definition one_day_iso (d : date) : string :=
  if d =? 19737 then "2024-01-15"%string else "0001-01-01"%string.

(** A stored idea dated on the day [one_day] knows. *)
Definition row3 : Row.t :=
  {| Row.id := 3; Row.title := "Apple AAPL Analysis"; Row.description := "";
     Row.idea_date := 19737; Row.status := WATCHLIST; Row.notes := "P/E";
     Row.created_at := 1007; Row.updated_at := 1008 |}.

Definition world3 : World :=
  {| table := [row1; row2; row3]; id_seq := 4; varchar_enforced := true; heap := [];
     clock := clock0; reads := 9 |}.
(** * Properties *)

Arguments too_long : simpl never.

Lemma too_long_false n s : (String.length s <= n)%nat -> too_long n s = false.
Proof. intros H. unfold too_long. apply Nat.ltb_ge. exact H. Qed.

Lemma too_long_true n s : too_long n s = true -> (n < String.length s)%nat.
Proof. unfold too_long. apply Nat.ltb_lt. Qed.

(** ** Rows, session objects and views *)

Lemma model_validate_of_row r : model_validate (of_row r) = Return (read_of_row r).
Proof. reflexivity. Qed.

Lemma traverse_of_rows l :
  traverse model_validate (map of_row l) = Return (map read_of_row l).
Proof.
  induction l as [|r l IH]; simpl; [reflexivity|].
  rewrite IH. reflexivity.
Qed.

Lemma flush_Return_inv enforce i e row :
  flush enforce i e = Return row ->
  InvestmentIdea.title e = Some (Row.title row) /\
  InvestmentIdea.description e = Some (Row.description row) /\
  InvestmentIdea.idea_date e = Some (Row.idea_date row) /\
  InvestmentIdea.status e = Some (Row.status row) /\
  InvestmentIdea.notes e = Some (Row.notes row) /\
  Row.id row = i /\
  Row.created_at row = InvestmentIdea.created_at e /\
  Row.updated_at row = InvestmentIdea.updated_at e /\
  row_fits enforce row.
Proof.
  unfold flush. destruct e as [i0 [t|] [d|] [dt|] [s|] [n|] c u]; simpl; try discriminate.
  destruct (enforce && _) eqn:E; [discriminate|].
  intros [= <-]; simpl. repeat split; try reflexivity.
  all: match goal with H : _ = true |- _ => rewrite H in E end; simpl in *;
       apply orb_false_elim in E as [E1 E3]; apply orb_false_elim in E1 as [E1 E2];
       unfold too_long in *; rewrite Nat.ltb_ge in E1, E2, E3; assumption.
Qed.

Lemma flush_of_row enforce r :
  row_fits enforce r -> flush enforce (Row.id r) (of_row r) = Return r.
Proof.
  intros Hfit. unfold flush; simpl. destruct enforce; simpl.
  - destruct (Hfit eq_refl) as (H1 & H2 & H3).
    rewrite !too_long_false by assumption. simpl. destruct r; reflexivity.
  - destruct r; reflexivity.
Qed.

Lemma flush_None enforce i e :
  InvestmentIdea.title e = None \/ InvestmentIdea.description e = None \/
  InvestmentIdea.idea_date e = None \/ InvestmentIdea.status e = None \/
  InvestmentIdea.notes e = None ->
  flush enforce i e = Raise IntegrityError.
Proof.
  unfold flush. destruct e as [i0 [t|] [d|] [dt|] [s|] [n|] c u]; simpl; try reflexivity.
  intros [H|[H|[H|[H|H]]]]; discriminate.
Qed.

(** ** Looking a row up by primary key *)

Lemma has_id_true i r : has_id i r = true <-> Row.id r = i.
Proof. unfold has_id. apply Z.eqb_eq. Qed.

Lemma has_id_false i r : has_id i r = false <-> Row.id r <> i.
Proof. unfold has_id. apply Z.eqb_neq. Qed.

Lemma find_has_id_None i l : i ∉ map Row.id l -> List.find (has_id i) l = None.
Proof.
  induction l as [|r l IH]; simpl; [reflexivity|].
  intros Hn. destruct (has_id i r) eqn:E.
  - apply has_id_true in E. exfalso. apply Hn. rewrite E. left.
  - apply IH. intros Hin. apply Hn. right. exact Hin.
Qed.

Lemma find_has_id_Some i l :
  i ∈ map Row.id l -> exists r, List.find (has_id i) l = Some r /\ Row.id r = i /\ r ∈ l.
Proof.
  induction l as [|r l IH]; simpl.
  - intros H. inversion H.
  - intros Hin. destruct (has_id i r) eqn:E.
    + apply has_id_true in E. exists r. repeat split; [exact E | left].
    + apply has_id_false in E.
      apply elem_of_cons in Hin as [Hin|Hin]; [congruence|].
      destruct (IH Hin) as (r' & Hf & Hid & Hel).
      exists r'. repeat split; [exact Hf | exact Hid | right; exact Hel].
Qed.

Lemma find_app_None (p : Row.t -> bool) l1 l2 :
  List.find p l1 = None -> List.find p (l1 ++ l2) = List.find p l2.
Proof.
  induction l1 as [|r l1 IH]; simpl; [reflexivity|].
  destruct (p r); [discriminate | exact IH].
Qed.

Lemma find_has_id_inv i l r :
  List.find (has_id i) l = Some r -> Row.id r = i /\ r ∈ l.
Proof.
  intros H. apply List.find_some in H as [Hin Hid].
  split; [apply has_id_true; exact Hid | apply list_elem_of_In; exact Hin].
Qed.

Lemma find_filter_other i j l :
  j <> i ->
  List.find (has_id j) (List.filter (fun r => negb (has_id i r)) l) = List.find (has_id j) l.
Proof.
  intros Hne. induction l as [|r l IH]; simpl; [reflexivity|].
  destruct (has_id i r) eqn:Ei; simpl.
  - destruct (has_id j r) eqn:Ej; [|exact IH].
    apply has_id_true in Ei, Ej. congruence.
  - destruct (has_id j r); [reflexivity | exact IH].
Qed.

Lemma find_filter_same i l :
  List.find (has_id i) (List.filter (fun r => negb (has_id i r)) l) = None.
Proof.
  induction l as [|r l IH]; simpl; [reflexivity|].
  destruct (has_id i r) eqn:E; simpl; [exact IH|]. rewrite E. exact IH.
Qed.

Lemma filter_no_match i l :
  i ∉ map Row.id l -> List.filter (fun r => negb (has_id i r)) l = l.
Proof.
  induction l as [|r l IH]; simpl; [reflexivity|].
  intros Hn. destruct (has_id i r) eqn:E; simpl.
  - apply has_id_true in E. exfalso. apply Hn. rewrite E. left.
  - f_equal. apply IH. intros Hin. apply Hn. right. exact Hin.
Qed.

(** ** Reading by id *)

Lemma get_by_id_eq idea_id w :
  get_investment_idea_by_id idea_id w =
  (Return (read_of_row <$> List.find (has_id idea_id) (table w)), w).
Proof.
  unfold get_investment_idea_by_id, bind, session_get.
  destruct (List.find (has_id idea_id) (table w)); reflexivity.
Qed.

(** C6.  For an id that no stored row carries, [get_investment_idea_by_id]
    returns [None], the not-found signal, as a normal result: it raises
    nothing and leaves the world as it was. *)
Theorem get_by_id_not_found (w : World) (idea_id : Z) :
  (idea_id ∉ ids w) ->
  get_investment_idea_by_id idea_id w = (Return None, w).
Proof.
  intros Hn. rewrite get_by_id_eq, (find_has_id_None _ _ Hn). reflexivity.
Qed.

Lemma get_by_id_not_found_witness :
  (999 ∉ ids world0) /\ get_investment_idea_by_id 999 world0 = (Return None, world0).
Proof.
  assert (H : 999 ∉ ids world0) by (intros H; inversion H).
  split; [exact H | exact (get_by_id_not_found world0 999 H)].
Defined.

(** ** Updating an id that is not there *)

(** C7.  For an id that no stored row carries and any Update view,
    [update_investment_idea] returns [None] and the whole world (table,
    sequence, caller objects, clock) is as it was. *)
Theorem update_not_found (w : World) (idea_id : Z) (update_data : InvestmentIdeaUpdate.t) :
  (idea_id ∉ ids w) ->
  update_investment_idea idea_id update_data w = (Return None, w).
Proof.
  intros Hn. unfold update_investment_idea, bind, session_get.
  rewrite (find_has_id_None _ _ Hn). reflexivity.
Qed.

Lemma update_not_found_witness :
  (999 ∉ ids world1) /\
  update_investment_idea 999
    (InvestmentIdeaUpdate.mk (Given (Some "Won't work"%string)) Omitted Omitted Omitted Omitted)
    world1 = (Return None, world1).
Proof.
  assert (H : 999 ∉ ids world1).
  { unfold ids; simpl. intros H. apply list_elem_of_singleton in H. discriminate. }
  split; [exact H | exact (update_not_found world1 999 _ H)].
Defined.

(** ** Deleting *)

Lemma with_table_same w : with_table w (table w) = w.
Proof. destruct w; reflexivity. Qed.

(** C8.  [delete_investment_idea] on an id that no row carries returns
    [False] and changes nothing.  On an id that a row carries it returns
    [True]; afterwards the id is gone from the table and reading it by id
    gives not-found, every other id reads as before, the rows that remain
    are the rows with another id, in their order, and nothing but the table
    has changed. *)
Theorem delete_spec (w : World) (idea_id : Z) :
  ((idea_id ∉ ids w) -> delete_investment_idea idea_id w = (Return false, w)) /\
  ((idea_id ∈ ids w) ->
   exists w',
     delete_investment_idea idea_id w = (Return true, w') /\
     (idea_id ∉ ids w') /\
     get_investment_idea_by_id idea_id w' = (Return None, w') /\
     (forall j, j <> idea_id ->
        fst (get_investment_idea_by_id j w') = fst (get_investment_idea_by_id j w)) /\
     table w' = List.filter (fun r => negb (has_id idea_id r)) (table w) /\
     w' = with_table w (table w')).
Proof.
  split.
  - intros Hn. unfold delete_investment_idea, bind, session_get.
    rewrite (find_has_id_None _ _ Hn). reflexivity.
  - intros Hin. destruct (find_has_id_Some _ _ Hin) as (r & Hf & Hid & _).
    eexists. split.
    { unfold delete_investment_idea, bind, session_get, session_delete_commit.
      rewrite Hf. simpl. rewrite Hid. reflexivity. }
    split.
    { unfold ids; simpl. intros Hel. apply list_elem_of_In, in_map_iff in Hel as (r' & Hr' & Hel).
      apply List.filter_In in Hel as [_ Hb].
      apply negb_true_iff, has_id_false in Hb. congruence. }
    split.
    { rewrite get_by_id_eq. simpl. rewrite find_filter_same. reflexivity. }
    split.
    { intros j Hj. rewrite !get_by_id_eq. simpl.
      rewrite find_filter_other by exact Hj. reflexivity. }
    split; reflexivity.
Qed.

Lemma delete_spec_witness :
  ((999 ∉ ids world1) /\ delete_investment_idea 999 world1 = (Return false, world1)) /\
  ((1 ∈ ids world1) /\
   exists w',
     delete_investment_idea 1 world1 = (Return true, w') /\
     (1 ∉ ids w') /\
     get_investment_idea_by_id 1 w' = (Return None, w') /\
     (forall j, j <> 1 ->
        fst (get_investment_idea_by_id j w') = fst (get_investment_idea_by_id j world1)) /\
     table w' = List.filter (fun r => negb (has_id 1 r)) (table world1) /\
     w' = with_table world1 (table w')).
Proof.
  assert (H9 : 999 ∉ ids world1).
  { unfold ids; simpl. intros H. apply list_elem_of_singleton in H. discriminate. }
  assert (H1 : 1 ∈ ids world1) by (unfold ids; simpl; left).
  split.
  - split; [exact H9 | exact (proj1 (delete_spec world1 999) H9)].
  - split; [exact H1 | exact (proj2 (delete_spec world1 1) H1)].
Defined.

(** ** Creating *)

Lemma validb_valid v : InvestmentIdeaCreate.validb v = true <-> InvestmentIdeaCreate.valid v.
Proof.
  unfold InvestmentIdeaCreate.validb, InvestmentIdeaCreate.valid.
  rewrite !andb_true_iff, !Nat.leb_le. tauto.
Qed.

(** What a create of a valid view does, in one equation. *)
Lemma create_eq (w : World) (idea_data : loc) (v : InvestmentIdeaCreate.t) :
  heap w !! idea_data = Some v ->
  InvestmentIdeaCreate.valid v ->
  let today := wall_date (clock w (reads w)) in
  let n := (reads w + date_reads v)%nat in
  let row :=
    {| Row.id := id_seq w;
       Row.title := InvestmentIdeaCreate.title v;
       Row.description := InvestmentIdeaCreate.description v;
       Row.idea_date := default today (InvestmentIdeaCreate.idea_date v);
       Row.status := InvestmentIdeaCreate.status v;
       Row.notes := InvestmentIdeaCreate.notes v;
       Row.created_at := utc (clock w n);
       Row.updated_at := utc (clock w (S n)) |} in
  create_investment_idea idea_data w =
  (Return (read_of_row row),
   {| table := table w ++ [row];
      id_seq := id_seq w + 1;
      varchar_enforced := varchar_enforced w;
      heap := match InvestmentIdeaCreate.idea_date v with
              | None => <[idea_data := with_idea_date v today]> (heap w)
              | Some _ => heap w
              end;
      clock := clock w;
      reads := S (S n) |}).
Proof.
  intros Hv (Ht & Hd & Hn).
  assert (Hfl : forall b, b && (too_long 200 (InvestmentIdeaCreate.title v)
                   || too_long 2000 (InvestmentIdeaCreate.description v)
                   || too_long 5000 (InvestmentIdeaCreate.notes v)) = false).
  { intros b. rewrite !too_long_false by assumption. apply andb_false_r. }
  unfold create_investment_idea, bind, getobj, date_reads. rewrite Hv.
  destruct (InvestmentIdeaCreate.idea_date v) as [d|] eqn:Ed.
  - simpl. rewrite Hv, Ed. unfold InvestmentIdea_new, bind, datetime_utcnow, ret,
      session_add_commit_refresh, flush, lift; simpl.
    rewrite Hfl. simpl. rewrite Nat.add_0_r. reflexivity.
  - unfold date_today, set_idea_date; simpl. rewrite Hv. simpl.
    rewrite list_lookup_insert_eq by (eapply lookup_lt_Some; exact Hv).
    unfold InvestmentIdea_new, bind, datetime_utcnow, ret,
      session_add_commit_refresh, flush, lift; simpl.
    rewrite Hfl. simpl. rewrite Nat.add_1_r. reflexivity.
Qed.

(** C2, as the code has it.  For every valid Create view, the create returns
    an entity whose id is the value drawn from the primary-key sequence (a
    fresh id, under which the entity can be read back, in a store whose keys
    lie below the sequence); [created_at] and [updated_at] are two successive
    readings of the clock, [created_at] first, so that
    [created_at <= updated_at] on a clock that does not go back. *)
Theorem create_id_and_timestamps (w : World) (idea_data : loc) (v : InvestmentIdeaCreate.t) :
  heap w !! idea_data = Some v ->
  InvestmentIdeaCreate.valid v ->
  exists r w',
    create_investment_idea idea_data w = (Return r, w') /\
    InvestmentIdeaRead.id r = id_seq w /\
    (Forall (fun x => Row.id x < id_seq w) (table w) ->
       (InvestmentIdeaRead.id r ∉ ids w) /\
       get_investment_idea_by_id (InvestmentIdeaRead.id r) w' = (Return (Some r), w')) /\
    InvestmentIdeaRead.created_at r = utc (clock w (reads w + date_reads v)) /\
    InvestmentIdeaRead.updated_at r = utc (clock w (S (reads w + date_reads v))) /\
    (clock_monotone w ->
       InvestmentIdeaRead.created_at r <= InvestmentIdeaRead.updated_at r).
Proof.
  intros Hv Hval. pose proof (create_eq w idea_data v Hv Hval) as E. simpl in E.
  eexists _, _. split; [exact E|]. simpl.
  split; [reflexivity|]. split; [|split; [reflexivity|split; [reflexivity|]]].
  - intros Hlt.
    assert (Hfresh : id_seq w ∉ ids w).
    { unfold ids. intros Hel. apply list_elem_of_In, in_map_iff in Hel as (x & Hx & Hel).
      rewrite List.Forall_forall in Hlt. specialize (Hlt x Hel). lia. }
    split; [exact Hfresh|].
    rewrite get_by_id_eq. simpl.
    rewrite (find_app_None _ _ _ (find_has_id_None _ _ Hfresh)). simpl.
    unfold has_id; simpl. rewrite Z.eqb_refl. reflexivity.
  - intros Hmono. apply Hmono.
Qed.

Lemma clock0_monotone w : clock w = clock0 -> clock_monotone w.
Proof. intros E n. rewrite E. simpl. lia. Qed.

Lemma clock0_advances w : clock w = clock0 -> clock_advances w.
Proof. intros E n. rewrite E. simpl. lia. Qed.

Lemma tesla_valid : InvestmentIdeaCreate.valid tesla.
Proof. unfold InvestmentIdeaCreate.valid; simpl. repeat split; lia. Qed.

Lemma create_id_and_timestamps_witness :
  exists r w',
    create_investment_idea 0%nat world_tesla = (Return r, w') /\
    InvestmentIdeaRead.id r = 1 /\
    InvestmentIdeaRead.created_at r <= InvestmentIdeaRead.updated_at r.
Proof.
  destruct (create_id_and_timestamps world_tesla 0%nat tesla eq_refl tesla_valid)
    as (r & w' & E & Hid & _ & _ & _ & Hle).
  exists r, w'. split; [exact E|]. split; [exact Hid|].
  apply Hle. apply clock0_monotone. reflexivity.
Defined.

(** C2, as the claim has it, fails: the entity created from
    [InvestmentIdeaCreate(title="Tesla Stock Analysis")] on a clock that
    advances by one microsecond per reading has [created_at = 1001] and
    [updated_at = 1002]. *)
Lemma create_timestamps_differ :
  exists r w',
    create_investment_idea 0%nat world_tesla = (Return r, w') /\
    InvestmentIdeaRead.created_at r = 1001 /\
    InvestmentIdeaRead.updated_at r = 1002 /\
    InvestmentIdeaRead.created_at r <> InvestmentIdeaRead.updated_at r.
Proof.
  eexists _, _. split; [vm_compute; reflexivity|].
  simpl. split; [reflexivity|]. split; [reflexivity|]. discriminate.
Qed.

Lemma new_eq (w : World) title description idea_date status notes :
  let v := InvestmentIdeaCreate.of_kwargs title description idea_date status notes in
  InvestmentIdeaCreate.valid v ->
  InvestmentIdeaCreate_new title description idea_date status notes w =
  (Return (length (heap w)), with_heap w (heap w ++ [v])).
Proof.
  intros v Hval. unfold InvestmentIdeaCreate_new, construct. fold v.
  apply validb_valid in Hval. rewrite Hval. reflexivity.
Qed.

Lemma lookup_fresh (h : list InvestmentIdeaCreate.t) v : (h ++ [v]) !! length h = Some v.
Proof. rewrite lookup_app_r by lia. rewrite Nat.sub_diag. reflexivity. Qed.

(** C3.  A Create view built with some keywords left out, then created:
    the returned entity has the empty string for an omitted [description] or
    [notes], [RESEARCHING] for an omitted [status], and, when [idea_date] is
    omitted or [None], the date the server clock shows when the service is
    called; whatever was passed is returned as passed. *)
Theorem create_defaults (w : World) (title : string) (description : kwarg string)
    (idea_date : kwarg (option date)) (status : kwarg InvestmentStatus)
    (notes : kwarg string) :
  InvestmentIdeaCreate.valid
    (InvestmentIdeaCreate.of_kwargs title description idea_date status notes) ->
  exists idea_data w1 r w2,
    InvestmentIdeaCreate_new title description idea_date status notes w
      = (Return idea_data, w1) /\
    create_investment_idea idea_data w1 = (Return r, w2) /\
    (description = Omitted -> InvestmentIdeaRead.description r = ""%string) /\
    (status = Omitted -> InvestmentIdeaRead.status r = RESEARCHING) /\
    (notes = Omitted -> InvestmentIdeaRead.notes r = ""%string) /\
    (idea_date = Omitted \/ idea_date = Given None ->
       InvestmentIdeaRead.idea_date r = wall_date (clock w (reads w))) /\
    InvestmentIdeaRead.title r = title /\
    (forall d, description = Given d -> InvestmentIdeaRead.description r = d) /\
    (forall s, status = Given s -> InvestmentIdeaRead.status r = s) /\
    (forall n, notes = Given n -> InvestmentIdeaRead.notes r = n) /\
    (forall d, idea_date = Given (Some d) -> InvestmentIdeaRead.idea_date r = d).
Proof.
  intros Hval.
  set (v := InvestmentIdeaCreate.of_kwargs title description idea_date status notes) in *.
  pose proof (new_eq w title description idea_date status notes Hval) as E1.
  assert (Hv : heap (with_heap w (heap w ++ [v])) !! length (heap w) = Some v)
    by apply lookup_fresh.
  pose proof (create_eq _ _ _ Hv Hval) as E2. simpl in E2.
  eexists _, _, _, _. split; [exact E1|]. split; [exact E2|]. simpl.
  repeat split.
  - intros ->. reflexivity.
  - intros ->. reflexivity.
  - intros ->. reflexivity.
  - intros [-> | ->]; reflexivity.
  - intros d ->. reflexivity.
  - intros s ->. reflexivity.
  - intros n ->. reflexivity.
  - intros d ->. reflexivity.
Qed.

Lemma create_defaults_witness :
  exists r w2,
    create_investment_idea 0%nat world_tesla = (Return r, w2) /\
    InvestmentIdeaRead.title r = "Tesla Stock Analysis"%string /\
    InvestmentIdeaRead.description r = ""%string /\
    InvestmentIdeaRead.idea_date r = 20000 /\
    InvestmentIdeaRead.status r = RESEARCHING /\
    InvestmentIdeaRead.notes r = ""%string.
Proof.
  destruct (create_defaults world0 "Tesla Stock Analysis" Omitted Omitted Omitted Omitted
              tesla_valid)
    as (ref & w1 & r & w2 & E1 & E2 & Hd & Hs & Hn & Hdt & Ht & _).
  injection E1 as <- <-.
  exists r, w2. split; [exact E2|].
  split; [exact Ht|]. split; [exact (Hd eq_refl)|].
  split; [exact (Hdt (or_introl eq_refl))|].
  split; [exact (Hs eq_refl) | exact (Hn eq_refl)].
Defined.

(** The caller's object after a create that found no date in it, whether the
    create returned or raised. *)
Lemma create_heap (w : World) (idea_data : loc) (v : InvestmentIdeaCreate.t) :
  heap w !! idea_data = Some v ->
  InvestmentIdeaCreate.idea_date v = None ->
  heap (snd (create_investment_idea idea_data w)) =
  <[idea_data := with_idea_date v (wall_date (clock w (reads w)))]> (heap w).
Proof.
  intros Hv Ed.
  unfold create_investment_idea, bind, getobj. rewrite Hv, Ed.
  unfold date_today, set_idea_date; simpl. rewrite Hv. simpl.
  rewrite list_lookup_insert_eq by (eapply lookup_lt_Some; exact Hv).
  unfold InvestmentIdea_new, bind, datetime_utcnow, ret, session_add_commit_refresh, lift.
  simpl. destruct (flush _ _ _); reflexivity.
Qed.

(** C10.  When the Create view behind the caller's reference has no date,
    the service writes today's date into that very object: once the create
    is over, the caller's reference designates the view with [idea_date] set
    to the date the clock showed, its other fields and every other object
    being as before; and the entity returned for a valid view carries that
    date. *)
Theorem create_mutates_input (w : World) (idea_data : loc) (v : InvestmentIdeaCreate.t) :
  heap w !! idea_data = Some v ->
  InvestmentIdeaCreate.idea_date v = None ->
  let today := wall_date (clock w (reads w)) in
  let w' := snd (create_investment_idea idea_data w) in
  heap w' !! idea_data = Some (with_idea_date v today) /\
  (forall other, other <> idea_data -> heap w' !! other = heap w !! other) /\
  (InvestmentIdeaCreate.valid v ->
   exists r, fst (create_investment_idea idea_data w) = Return r /\
             InvestmentIdeaRead.idea_date r = today).
Proof.
  intros Hv Ed today w'. subst w'. rewrite (create_heap w idea_data v Hv Ed).
  split; [|split].
  - apply list_lookup_insert_eq. eapply lookup_lt_Some; exact Hv.
  - intros other Hne. apply list_lookup_insert_ne. congruence.
  - intros Hval. rewrite (create_eq w idea_data v Hv Hval). simpl.
    eexists; split; [reflexivity|]. simpl. rewrite Ed. reflexivity.
Qed.

Lemma create_mutates_input_witness :
  heap world_tesla !! 0%nat = Some tesla /\
  InvestmentIdeaCreate.idea_date tesla = None /\
  heap (snd (create_investment_idea 0%nat world_tesla)) !! 0%nat
    = Some (with_idea_date tesla 20000).
Proof.
  split; [reflexivity|]. split; [reflexivity|].
  exact (proj1 (create_mutates_input world_tesla 0%nat tesla eq_refl eq_refl)).
Defined.

(** ** Ordering by creation time *)

Section Ordering.

Local Hint Constructors StronglySorted Forall : core.

Lemma insert_desc_Permutation r l : Permutation (insert_desc r l) (r :: l).
Proof.
  induction l as [|x l IH]; simpl; [reflexivity|].
  destruct (Row.created_at x <=? Row.created_at r); [reflexivity|].
  rewrite IH. apply perm_swap.
Qed.

Lemma order_by_Permutation l : Permutation (order_by_created_at_desc l) l.
Proof.
  induction l as [|x l IH]; simpl; [reflexivity|].
  rewrite insert_desc_Permutation. apply perm_skip. exact IH.
Qed.

Lemma insert_desc_sorted r l :
  StronglySorted row_newer_first l -> StronglySorted row_newer_first (insert_desc r l).
Proof.
  induction 1 as [|x l Hs IH Hx]; simpl; [auto|].
  destruct (Z.leb_spec (Row.created_at x) (Row.created_at r)) as [Hle|Hgt].
  - constructor; [auto|]. constructor; [exact Hle|].
    eapply Forall_impl; [exact Hx|]. unfold row_newer_first. intros y Hy. simpl in *. lia.
  - constructor; [exact IH|].
    eapply Permutation_Forall; [symmetry; apply insert_desc_Permutation|].
    constructor; [unfold row_newer_first; lia | exact Hx].
Qed.

Lemma order_by_sorted l : StronglySorted row_newer_first (order_by_created_at_desc l).
Proof.
  induction l as [|x l IH]; simpl; [auto|]. apply insert_desc_sorted, IH.
Qed.



Lemma insert_desc_oldest r l :
  Forall (fun x => row_older r x) l -> insert_desc r l = l ++ [r].
Proof.
  induction 1 as [|x l Hx Hl IH]; simpl; [reflexivity|].
  unfold row_older in Hx. apply Z.leb_gt in Hx. rewrite Hx, IH. reflexivity.
Qed.

(** Rows stored in strictly ascending creation order come back reversed. *)
Lemma order_by_ascending l :
  StronglySorted row_older l -> order_by_created_at_desc l = rev l.
Proof.
  induction 1 as [|x l Hs IH Hx]; simpl; [reflexivity|].
  rewrite IH. apply insert_desc_oldest.
  apply List.Forall_forall. intros y Hy. rewrite List.Forall_forall in Hx.
  apply Hx. apply in_rev. exact Hy.
Qed.

Lemma filter_all (l : list Row.t) : List.filter (fun _ => true) l = l.
Proof. induction l as [|x l IH]; simpl; [reflexivity | rewrite IH; reflexivity]. Qed.

Lemma map_sorted l :
  StronglySorted row_newer_first l -> StronglySorted newer_first (map read_of_row l).
Proof.
  induction 1 as [|x l Hs IH Hx]; simpl; [auto|].
  constructor; [exact IH|]. apply Forall_map. exact Hx.
Qed.


End Ordering.

Lemma get_all_eq w :
  get_all_investment_ideas w =
  (Return (map read_of_row (order_by_created_at_desc (table w))), w).
Proof.
  unfold get_all_investment_ideas, bind, session_exec_select, lift.
  rewrite traverse_of_rows, filter_all. reflexivity.
Qed.

Lemma get_ideas_by_status_eq s w :
  get_ideas_by_status s w =
  (Return (map read_of_row
             (order_by_created_at_desc (List.filter (row_has_status s) (table w)))), w).
Proof.
  unfold get_ideas_by_status, bind, session_exec_select, lift.
  rewrite traverse_of_rows. reflexivity.
Qed.

(** ** Sequences of creates *)

Lemma clock_advances_lt w m n :
  clock_advances w -> (m < n)%nat -> utc (clock w m) < utc (clock w n).
Proof.
  intros Hadv Hlt. induction Hlt as [|n Hle IH].
  - apply Hadv.
  - specialize (Hadv n). lia.
Qed.

Lemma clock_advances_le w m n :
  clock_advances w -> (m <= n)%nat -> utc (clock w m) <= utc (clock w n).
Proof.
  intros Hadv Hle. destruct (Nat.eq_dec m n) as [->|Hne]; [lia|].
  assert (m < n)%nat by lia. pose proof (clock_advances_lt w m n Hadv). lia.
Qed.

Lemma clock_monotone_le w m n :
  clock_monotone w -> (m <= n)%nat -> utc (clock w m) <= utc (clock w n).
Proof.
  intros Hmono Hle. induction Hle as [|n Hle IH]; [lia|].
  specialize (Hmono n). lia.
Qed.

Lemma submit_ok (w : World) (v : InvestmentIdeaCreate.t) :
  InvestmentIdeaCreate.valid v ->
  exists row w',
    submit v w = (Return (read_of_row row), w') /\
    table w' = table w ++ [row] /\
    clock w' = clock w /\
    reads w' = S (S (reads w + date_reads v)) /\
    Row.created_at row = utc (clock w (reads w + date_reads v)) /\
    Row.title row = InvestmentIdeaCreate.title v.
Proof.
  intros Hval. unfold submit, bind, construct. rewrite (proj2 (validb_valid v) Hval).
  assert (Hv : heap (with_heap w (heap w ++ [v])) !! length (heap w) = Some v)
    by apply lookup_fresh.
  pose proof (create_eq _ _ _ Hv Hval) as E. simpl in E.
  eexists _, _. split; [exact E|]. simpl. repeat split; reflexivity.
Qed.

Lemma submit_all_ok (vs : list InvestmentIdeaCreate.t) : forall w : World,
  Forall InvestmentIdeaCreate.valid vs ->
  exists rows w',
    submit_all vs w = (Return (map read_of_row rows), w') /\
    table w' = table w ++ rows /\
    length rows = length vs /\
    map Row.title rows = map InvestmentIdeaCreate.title vs /\
    clock w' = clock w /\
    (reads w <= reads w')%nat /\
    (clock_advances w ->
       StronglySorted row_older rows /\
       Forall (fun r => utc (clock w (reads w)) <= Row.created_at r) rows).
Proof.
  induction vs as [|v vs IH]; intros w Hval.
  - exists [], w. simpl. rewrite app_nil_r.
    repeat split; try reflexivity; constructor.
  - inversion Hval as [|? ? Hv Hvs]; subst.
    destruct (submit_ok w v Hv) as (row & w1 & E1 & Ht1 & Hc1 & Hr1 & Hcr & Hti).
    destruct (IH w1 Hvs) as (rows & w2 & E2 & Ht2 & Hlen & Htis & Hc2 & Hr2 & Hstrict).
    exists (row :: rows), w2. simpl. unfold bind. rewrite E1, E2. simpl.
    split; [reflexivity|]. split; [rewrite Ht2, Ht1, <- app_assoc; reflexivity|].
    split; [rewrite Hlen; reflexivity|]. split; [rewrite Hti, Htis; reflexivity|].
    split; [congruence|]. split; [lia|].
    intros Hadv.
    assert (Hadv1 : clock_advances w1) by (intros n; rewrite Hc1; apply Hadv).
    destruct (Hstrict Hadv1) as [Hs Hlo]. rewrite Hc1, Hr1 in Hlo.
    assert (Hnext : Row.created_at row < utc (clock w (S (S (reads w + date_reads v))))).
    { rewrite Hcr. apply clock_advances_lt; [exact Hadv | lia]. }
    split.
    + constructor; [exact Hs|]. eapply Forall_impl; [exact Hlo|].
      intros r Hr. unfold row_older. simpl in Hr. lia.
    + constructor.
      * rewrite Hcr. apply clock_advances_le; [exact Hadv | lia].
      * eapply Forall_impl; [exact Hlo|]. intros r Hr. simpl in Hr.
        pose proof (clock_advances_le w (reads w) (S (S (reads w + date_reads v))) Hadv).
        lia.
Qed.

(** C4, as the code has it.  [get_all_investment_ideas] returns the Read
    views of all stored rows, each once, most recently created first, and
    changes nothing.  After the creates of N valid views it returns N
    entities more than the table held before, that is N on an empty table.
    After the creates of three valid views A, B, C on an empty table it
    returns [C, B, A] whenever the three [created_at] stamps strictly
    increase, as they do on a clock that advances between readings. *)
Theorem get_all_ordered (w : World) :
  (exists l,
     get_all_investment_ideas w = (Return l, w) /\
     Permutation l (map read_of_row (table w)) /\
     StronglySorted newer_first l) /\
  (forall vs, Forall InvestmentIdeaCreate.valid vs ->
     exists rs w' l,
       submit_all vs w = (Return rs, w') /\
       length rs = length vs /\
       get_all_investment_ideas w' = (Return l, w') /\
       length l = (length (table w) + length vs)%nat) /\
  (forall a b c, table w = [] ->
     InvestmentIdeaCreate.valid a -> InvestmentIdeaCreate.valid b ->
     InvestmentIdeaCreate.valid c ->
     exists ra rb rc w',
       submit_all [a; b; c] w = (Return [ra; rb; rc], w') /\
       InvestmentIdeaRead.title ra = InvestmentIdeaCreate.title a /\
       InvestmentIdeaRead.title rb = InvestmentIdeaCreate.title b /\
       InvestmentIdeaRead.title rc = InvestmentIdeaCreate.title c /\
       (InvestmentIdeaRead.created_at ra < InvestmentIdeaRead.created_at rb ->
        InvestmentIdeaRead.created_at rb < InvestmentIdeaRead.created_at rc ->
        get_all_investment_ideas w' = (Return [rc; rb; ra], w')) /\
       (clock_advances w ->
        InvestmentIdeaRead.created_at ra < InvestmentIdeaRead.created_at rb /\
        InvestmentIdeaRead.created_at rb < InvestmentIdeaRead.created_at rc)).
Proof.
  split; [|split].
  - eexists. split; [apply get_all_eq|]. split.
    + apply Permutation_map, order_by_Permutation.
    + apply map_sorted, order_by_sorted.
  - intros vs Hval.
    destruct (submit_all_ok vs w Hval) as (rows & w' & E & Ht & Hlen & _).
    eexists _, _, _. split; [exact E|].
    split; [rewrite length_map; exact Hlen|]. split; [apply get_all_eq|].
    rewrite length_map, (Permutation_length (order_by_Permutation _)).
    rewrite Ht, length_app, Hlen. reflexivity.
  - intros a b c Hempty Ha Hb Hc.
    destruct (submit_all_ok [a; b; c] w) as (rows & w' & E & Ht & Hlen & Hti & _ & _ & Hs).
    { constructor; [exact Ha|]. constructor; [exact Hb|].
      constructor; [exact Hc | constructor]. }
    destruct rows as [|ra [|rb [|rc [|? ?]]]]; try discriminate.
    simpl in Hti. injection Hti as Hta Htb Htc.
    exists (read_of_row ra), (read_of_row rb), (read_of_row rc), w'.
    split; [exact E|]. simpl.
    split; [exact Hta|]. split; [exact Htb|]. split; [exact Htc|]. split.
    + intros Hab Hbc. rewrite get_all_eq, Ht, Hempty. simpl app.
      rewrite order_by_ascending; [reflexivity|].
      constructor; [constructor; [constructor; [constructor|constructor]|]|].
      * constructor; [exact Hbc | constructor].
      * constructor; [exact Hab|]. constructor; [|constructor].
        unfold row_older. lia.
    + intros Hadv. destruct (Hs Hadv) as [Hsorted _].
      inversion Hsorted as [|? ? Hrest Hra]; subst.
      inversion Hrest as [|? ? _ Hrb]; subst.
      inversion Hra as [|? ? Hab _]; subst. inversion Hrb as [|? ? Hbc _]; subst.
      split; [exact Hab | exact Hbc].
Qed.

Lemma short_title_valid t :
  (String.length t <= 200)%nat ->
  InvestmentIdeaCreate.valid (InvestmentIdeaCreate.of_kwargs t Omitted Omitted Omitted Omitted).
Proof. intros H. unfold InvestmentIdeaCreate.valid; simpl. repeat split; [exact H | lia | lia]. Qed.

Lemma get_all_ordered_witness :
  exists ra rb rc w',
    submit_all [first_idea; second_idea; third_idea] world0 = (Return [ra; rb; rc], w') /\
    InvestmentIdeaRead.title ra = "First Idea"%string /\
    InvestmentIdeaRead.title rb = "Second Idea"%string /\
    InvestmentIdeaRead.title rc = "Third Idea"%string /\
    InvestmentIdeaRead.created_at ra < InvestmentIdeaRead.created_at rb /\
    InvestmentIdeaRead.created_at rb < InvestmentIdeaRead.created_at rc /\
    get_all_investment_ideas w' = (Return [rc; rb; ra], w').
Proof.
  destruct (proj2 (proj2 (get_all_ordered world0)) first_idea second_idea third_idea eq_refl)
    as (ra & rb & rc & w' & E & Ha & Hb & Hc & Horder & Hclock).
  - apply short_title_valid. simpl. lia.
  - apply short_title_valid. simpl. lia.
  - apply short_title_valid. simpl. lia.
  - destruct (Hclock (clock0_advances world0 eq_refl)) as [Hab Hbc].
    exists ra, rb, rc, w'. split; [exact E|]. split; [exact Ha|]. split; [exact Hb|].
    split; [exact Hc|]. split; [exact Hab|]. split; [exact Hbc|].
    exact (Horder Hab Hbc).
Defined.

(** C4, as the claim has it, fails: on a clock that shows the same time at
    every reading, the three creates of the ordering test give three entities
    with one [created_at], a listing that is in descending order of
    [created_at] all the same, and that listing is [A, B, C]. *)
Lemma three_creates_on_a_still_clock :
  exists ra rb rc w',
    submit_all [first_idea; second_idea; third_idea] world_still
      = (Return [ra; rb; rc], w') /\
    InvestmentIdeaRead.title ra = "First Idea"%string /\
    InvestmentIdeaRead.title rb = "Second Idea"%string /\
    InvestmentIdeaRead.title rc = "Third Idea"%string /\
    get_all_investment_ideas w' = (Return [ra; rb; rc], w') /\
    StronglySorted newer_first [ra; rb; rc] /\
    [ra; rb; rc] <> [rc; rb; ra].
Proof.
  eexists _, _, _, _. split; [vm_compute; reflexivity|].
  split; [reflexivity|]. split; [reflexivity|]. split; [reflexivity|].
  split; [vm_compute; reflexivity|]. split.
  - repeat constructor; unfold newer_first; simpl; lia.
  - discriminate.
Qed.

(** ** Filtering by status *)




(** ** Updating *)

(** The session object after the loop over the dump. *)
Lemma setattr_dump (u : InvestmentIdeaUpdate.t) (e : InvestmentIdea.t) :
  fold_left setattr (model_dump_exclude_unset u) e =
  {| InvestmentIdea.id := InvestmentIdea.id e;
     InvestmentIdea.title := merged (InvestmentIdeaUpdate.title u) (InvestmentIdea.title e);
     InvestmentIdea.description :=
       merged (InvestmentIdeaUpdate.description u) (InvestmentIdea.description e);
     InvestmentIdea.idea_date :=
       merged (InvestmentIdeaUpdate.idea_date u) (InvestmentIdea.idea_date e);
     InvestmentIdea.status := merged (InvestmentIdeaUpdate.status u) (InvestmentIdea.status e);
     InvestmentIdea.notes := merged (InvestmentIdeaUpdate.notes u) (InvestmentIdea.notes e);
     InvestmentIdea.created_at := InvestmentIdea.created_at e;
     InvestmentIdea.updated_at := InvestmentIdea.updated_at e |}.
Proof.
  destruct e, u as [[|t] [|d] [|dt] [|s] [|n]]; reflexivity.
Qed.

(** What an update of a stored id does, in one equation. *)
Lemma update_eq (w : World) (idea_id : Z) (u : InvestmentIdeaUpdate.t) (old : Row.t) :
  List.find (has_id idea_id) (table w) = Some old ->
  update_investment_idea idea_id u w =
  match flush (varchar_enforced w) (Row.id old)
          (pending u old (utc (clock w (reads w)))) with
  | Return row =>
      (Return (Some (read_of_row row)),
       with_table (tick w)
         (map (fun r => if has_id (Row.id old) r then row else r) (table w)))
  | Raise e => (Raise e, tick w)
  end.
Proof.
  intros Hf. unfold update_investment_idea, bind, session_get. rewrite Hf. simpl.
  rewrite setattr_dump. unfold datetime_utcnow, session_add_commit_refresh; simpl.
  change (set_updated_at _ _) with (pending u old (utc (clock w (reads w)))).
  destruct (flush _ _ _); reflexivity.
Qed.

Lemma pending_None (u : InvestmentIdeaUpdate.t) old now :
  sets_None u ->
  InvestmentIdea.title (pending u old now) = None \/
  InvestmentIdea.description (pending u old now) = None \/
  InvestmentIdea.idea_date (pending u old now) = None \/
  InvestmentIdea.status (pending u old now) = None \/
  InvestmentIdea.notes (pending u old now) = None.
Proof.
  unfold sets_None. simpl. intros [H|[H|[H|[H|H]]]]; rewrite H; simpl; tauto.
Qed.

(** An update that sets a field to [None] on a stored id: the [None] is
    assigned like any other value, the commit is refused, nothing is
    written, and no entity comes back. *)
Lemma update_sets_None_raises (w : World) (idea_id : Z) (u : InvestmentIdeaUpdate.t) :
  (idea_id ∈ ids w) ->
  sets_None u ->
  update_investment_idea idea_id u w = (Raise IntegrityError, tick w).
Proof.
  intros Hin Hnone. destruct (find_has_id_Some _ _ Hin) as (old & Hf & _ & _).
  rewrite (update_eq w idea_id u old Hf).
  rewrite (flush_None _ _ _ (pending_None u old _ Hnone)). reflexivity.
Qed.

(** Fields left unset keep their value, fields set to a value take it: the
    entity returned by a successful update, field by field. *)
Lemma update_frame (w w' : World) (idea_id : Z) (u : InvestmentIdeaUpdate.t)
    (r : InvestmentIdeaRead.t) :
  update_investment_idea idea_id u w = (Return (Some r), w') ->
  exists old,
    List.find (has_id idea_id) (table w) = Some old /\
    InvestmentIdeaRead.id r = idea_id /\
    merged (InvestmentIdeaUpdate.title u) (Some (Row.title old))
      = Some (InvestmentIdeaRead.title r) /\
    merged (InvestmentIdeaUpdate.description u) (Some (Row.description old))
      = Some (InvestmentIdeaRead.description r) /\
    merged (InvestmentIdeaUpdate.idea_date u) (Some (Row.idea_date old))
      = Some (InvestmentIdeaRead.idea_date r) /\
    merged (InvestmentIdeaUpdate.status u) (Some (Row.status old))
      = Some (InvestmentIdeaRead.status r) /\
    merged (InvestmentIdeaUpdate.notes u) (Some (Row.notes old))
      = Some (InvestmentIdeaRead.notes r) /\
    InvestmentIdeaRead.created_at r = Row.created_at old /\
    InvestmentIdeaRead.updated_at r = utc (clock w (reads w)) /\
    get_investment_idea_by_id idea_id w' = (Return (Some r), w').
Proof.
  intros E. destruct (List.find (has_id idea_id) (table w)) as [old|] eqn:Hf.
  2:{ unfold update_investment_idea, bind, session_get in E. rewrite Hf in E. discriminate. }
  exists old. split; [reflexivity|].
  destruct (find_has_id_inv _ _ _ Hf) as [Hid _].
  rewrite (update_eq w idea_id u old Hf) in E.
  destruct (flush _ _ _) as [row|] eqn:Hfl; [|discriminate].
  injection E as <- <-.
  destruct (flush_Return_inv _ _ _ _ Hfl)
    as (Ht & Hd & Hdt & Hs & Hn & Hrid & Hc & Hu & _).
  simpl in Ht, Hd, Hdt, Hs, Hn, Hc, Hu. simpl.
  repeat (split; [first [assumption | congruence]|]).
  rewrite get_by_id_eq. simpl. f_equal. f_equal.
  rewrite Hid. clear - Hf Hrid Hid.
  induction (table w) as [|x l IH]; simpl in *; [discriminate|].
  destruct (has_id idea_id x) eqn:Ex.
  - unfold has_id. rewrite Hrid, Hid, Z.eqb_refl. reflexivity.
  - rewrite Ex. apply IH. exact Hf.
Qed.

(** C1, at the input where code and claim part.  The stored idea 1 has the
    description "Original Description"; the update
    [InvestmentIdeaUpdate(title="Updated Title", description=None)] does not
    leave the description alone and apply the title: the [None] goes through
    [model_dump(exclude_unset=True)] and [setattr] like any set value, the
    commit raises, and the table is as it was. *)
Theorem update_explicit_None_raises :
  model_dump_exclude_unset update_title_and_None
    = [Title (Some "Updated Title"%string); Description None] /\
  update_investment_idea 1 update_title_and_None world1
    = (Raise IntegrityError, tick world1) /\
  table (tick world1) = [row1].
Proof. repeat split. Qed.

(** The same store, with the fields left out instead: only the status
    changes, and [updated_at] is the reading of the clock. *)
Lemma update_status_only_run :
  fst (update_investment_idea 1 update_status_only world1) =
  Return (Some {| InvestmentIdeaRead.id := 1;
                  InvestmentIdeaRead.title := "Original Title";
                  InvestmentIdeaRead.description := "Original Description";
                  InvestmentIdeaRead.idea_date := 20000;
                  InvestmentIdeaRead.status := INVESTED;
                  InvestmentIdeaRead.notes := "Original Notes";
                  InvestmentIdeaRead.created_at := 1001;
                  InvestmentIdeaRead.updated_at := 1003 |}).
Proof. vm_compute. reflexivity. Qed.

(** ** What each operation does to the world *)

(** Split the conjunctions of the goal, and only those. *)
Ltac conjs :=
  repeat match goal with |- _ /\ _ => split end;
  try first [reflexivity | assumption | lia | congruence | solve [auto]].

(** A create either leaves the table alone (it raised) or appends one row,
    stamped with two successive readings of the clock. *)
Lemma create_cases (w : World) (idea_data : loc) :
  let w' := snd (create_investment_idea idea_data w) in
  clock w' = clock w /\ varchar_enforced w' = varchar_enforced w /\
  (reads w <= reads w')%nat /\
  ((table w' = table w /\ id_seq w' = id_seq w) \/
   exists row n,
     table w' = table w ++ [row] /\ id_seq w' = id_seq w + 1 /\
     Row.id row = id_seq w /\
     Row.created_at row = utc (clock w n) /\
     Row.updated_at row = utc (clock w (S n)) /\
     (reads w <= n)%nat /\ reads w' = S (S n) /\
     row_fits (varchar_enforced w) row).
Proof.
  unfold create_investment_idea, bind, getobj.
  destruct (heap w !! idea_data) as [v|] eqn:Hv; simpl.
  2:{ conjs. }
  destruct (InvestmentIdeaCreate.idea_date v) as [d|] eqn:Ed; simpl.
  - rewrite Hv. unfold InvestmentIdea_new, bind, datetime_utcnow, ret,
      session_add_commit_refresh, lift; simpl.
    destruct (flush _ _ _) as [row|e] eqn:Hfl; simpl.
    + destruct (flush_Return_inv _ _ _ _ Hfl) as (_ & _ & _ & _ & _ & Hid & Hc & Hu & Hfit).
      simpl in Hc, Hu. conjs. right. exists row, (reads w).
      conjs.
    + conjs.
  - unfold date_today, set_idea_date; simpl. rewrite Hv. simpl.
    rewrite list_lookup_insert_eq by (eapply lookup_lt_Some; exact Hv).
    unfold InvestmentIdea_new, bind, datetime_utcnow, ret,
      session_add_commit_refresh, lift; simpl.
    destruct (flush _ _ _) as [row|e] eqn:Hfl; simpl.
    + destruct (flush_Return_inv _ _ _ _ Hfl) as (_ & _ & _ & _ & _ & Hid & Hc & Hu & Hfit).
      simpl in Hc, Hu. conjs. right. exists row, (S (reads w)).
      conjs.
    + conjs.
Qed.

(** An update either leaves the table alone (not found, or it raised) or
    replaces the row of that id by one with the same id and [created_at],
    stamped with the reading of the clock. *)
Lemma update_cases (w : World) (idea_id : Z) (u : InvestmentIdeaUpdate.t) :
  let w' := snd (update_investment_idea idea_id u w) in
  clock w' = clock w /\ varchar_enforced w' = varchar_enforced w /\
  id_seq w' = id_seq w /\ heap w' = heap w /\ (reads w <= reads w')%nat /\
  (table w' = table w \/
   exists old row,
     List.find (has_id idea_id) (table w) = Some old /\
     table w' = map (fun r => if has_id idea_id r then row else r) (table w) /\
     Row.id row = idea_id /\
     Row.created_at row = Row.created_at old /\
     Row.updated_at row = utc (clock w (reads w)) /\
     reads w' = S (reads w) /\
     row_fits (varchar_enforced w) row).
Proof.
  destruct (List.find (has_id idea_id) (table w)) as [old|] eqn:Hf.
  - rewrite (update_eq w idea_id u old Hf).
    destruct (find_has_id_inv _ _ _ Hf) as [Hid _].
    destruct (flush _ _ _) as [row|e] eqn:Hfl; simpl.
    + destruct (flush_Return_inv _ _ _ _ Hfl) as (_ & _ & _ & _ & _ & Hrid & Hc & Hu & Hfit).
      simpl in Hc, Hu. conjs. right. exists old, row.
      rewrite Hid. conjs.
    + conjs.
  - unfold update_investment_idea, bind, session_get. rewrite Hf. simpl.
    conjs.
Qed.

Lemma delete_cases (w : World) (idea_id : Z) :
  snd (delete_investment_idea idea_id w) =
  with_table w (List.filter (fun r => negb (has_id idea_id r)) (table w)).
Proof.
  unfold delete_investment_idea, bind, session_get, session_delete_commit.
  destruct (List.find (has_id idea_id) (table w)) as [old|] eqn:Hf; simpl.
  - destruct (find_has_id_inv _ _ _ Hf) as [-> _]. reflexivity.
  - rewrite filter_no_match, with_table_same; [reflexivity|].
    intros Hin. destruct (find_has_id_Some _ _ Hin) as (r & Hr & _). congruence.
Qed.

Lemma new_cases (w : World) t d dt s n :
  let w' := snd (InvestmentIdeaCreate_new t d dt s n w) in
  table w' = table w /\ id_seq w' = id_seq w /\ clock w' = clock w /\
  reads w' = reads w /\ varchar_enforced w' = varchar_enforced w.
Proof.
  unfold InvestmentIdeaCreate_new, construct.
  destruct (InvestmentIdeaCreate.validb _); simpl; auto.
Qed.

Lemma serve_clock (w : World) (q : request) :
  clock (serve w q) = clock w /\ varchar_enforced (serve w q) = varchar_enforced w /\
  (reads w <= reads (serve w q))%nat.
Proof.
  destruct q; cbn [serve].
  - destruct (new_cases w title description idea_date status notes) as (_ & _ & -> & -> & ->).
    auto.
  - destruct (create_cases w idea_data) as (-> & -> & H & _). auto.
  - rewrite get_all_eq. auto.
  - rewrite get_by_id_eq. auto.
  - destruct (update_cases w idea_id update_data) as (-> & -> & _ & _ & H & _). auto.
  - rewrite delete_cases. auto.
  - rewrite get_ideas_by_status_eq. auto.
Qed.

(** ** Invariants of the store *)

Section Invariants.

Lemma Forall_replace (P : Row.t -> Prop) (c : Row.t -> bool) row l :
  P row -> Forall P l -> Forall P (map (fun r => if c r then row else r) l).
Proof.
  intros Hrow. induction 1 as [|x l Hx Hl IH]; simpl; constructor; [|exact IH].
  destruct (c x); assumption.
Qed.

Lemma Forall_filter_bool (P : Row.t -> Prop) (c : Row.t -> bool) l :
  Forall P l -> Forall P (List.filter c l).
Proof.
  induction 1 as [|x l Hx Hl IH]; simpl; [constructor|].
  destruct (c x); [constructor; assumption | exact IH].
Qed.

Lemma ids_replace i row l :
  Row.id row = i ->
  map Row.id (map (fun r => if has_id i r then row else r) l) = map Row.id l.
Proof.
  intros Hid. induction l as [|x l IH]; simpl; [reflexivity|]. rewrite IH. f_equal.
  destruct (has_id i x) eqn:E; [|reflexivity]. apply has_id_true in E. congruence.
Qed.

Lemma NoDup_ids_filter (c : Row.t -> bool) l :
  NoDup (map Row.id l) -> NoDup (map Row.id (List.filter c l)).
Proof.
  induction l as [|x l IH]; simpl; [auto|]. intros Hnd.
  apply NoDup_cons in Hnd as [Hx Hnd].
  destruct (c x); simpl; [|exact (IH Hnd)].
  apply NoDup_cons. split; [|exact (IH Hnd)].
  intros Hin. apply Hx. apply list_elem_of_In, in_map_iff in Hin as (y & Hy & Hin).
  apply List.filter_In in Hin as [Hin _].
  apply list_elem_of_In, in_map_iff. exists y. split; assumption.
Qed.

Lemma on_time_later now now' r : now <= now' -> on_time now r -> on_time now' r.
Proof. unfold on_time. lia. Qed.

Lemma timely_later (w w' : World) :
  clock_monotone w -> clock w' = clock w -> (reads w <= reads w')%nat ->
  Forall (on_time (utc (clock w (reads w)))) (table w) ->
  Forall (on_time (utc (clock w' (reads w')))) (table w).
Proof.
  intros Hmono Hc Hr H. eapply Forall_impl; [exact H|]. intros r. apply on_time_later.
  rewrite Hc. apply clock_monotone_le; assumption.
Qed.

(** Every request keeps [created_at <= updated_at] on every stored row. *)
Lemma serve_timely (w : World) (q : request) :
  clock_monotone w -> timely w -> timely (serve w q).
Proof.
  intros Hmono Ht. unfold timely in *. destruct q; cbn [serve].
  - destruct (new_cases w title description idea_date status notes)
      as (-> & _ & -> & -> & _). exact Ht.
  - destruct (create_cases w idea_data) as (Hc & _ & Hr & [[Htab _]|Hnew]).
    + rewrite Htab. apply timely_later; assumption.
    + destruct Hnew as (row & n & Htab & _ & _ & Hcr & Hup & Hn & Hrd & _).
      rewrite Htab. apply Forall_app. split.
      * apply timely_later; assumption.
      * constructor; [|constructor]. unfold on_time. rewrite Hcr, Hup, Hc, Hrd.
        pose proof (Hmono n). pose proof (Hmono (S n)). lia.
  - rewrite get_all_eq. exact Ht.
  - rewrite get_by_id_eq. exact Ht.
  - destruct (update_cases w idea_id update_data)
      as (Hc & _ & _ & _ & Hr & [Htab|Hrep]).
    + rewrite Htab. apply timely_later; assumption.
    + destruct Hrep as (old & row & Hf & Htab & _ & Hcr & Hup & Hrd & _).
      rewrite Htab. apply Forall_replace; [|apply timely_later; assumption].
      destruct (find_has_id_inv _ _ _ Hf) as [_ Hin].
      rewrite Forall_forall in Ht. destruct (Ht old Hin) as [Hle Hnow].
      unfold on_time. rewrite Hcr, Hup, Hc, Hrd. pose proof (Hmono (reads w)). lia.
  - rewrite delete_cases. simpl. apply Forall_filter_bool. exact Ht.
  - rewrite get_ideas_by_status_eq. exact Ht.
Qed.

(** Every request keeps the keys unique and below the sequence, and the
    rows within their columns. *)
Lemma serve_store_ok (w : World) (q : request) : store_ok w -> store_ok (serve w q).
Proof.
  intros (Hnd & Hlt & Hfit). unfold store_ok, ids in *. destruct q; cbn [serve].
  - destruct (new_cases w title description idea_date status notes)
      as (-> & -> & _ & _ & ->). auto.
  - destruct (create_cases w idea_data) as (_ & -> & _ & [[-> ->]|Hnew]); [auto|].
    destruct Hnew as (row & n & -> & -> & Hid & _ & _ & _ & _ & Hrow).
    rewrite map_app. simpl. split; [|split].
    + apply NoDup_app. split; [exact Hnd|]. split; [|apply NoDup_singleton].
      intros x Hx Hx'. apply list_elem_of_singleton in Hx'.
      apply list_elem_of_In, in_map_iff in Hx as (y & Hy & Hin).
      rewrite List.Forall_forall in Hlt. specialize (Hlt y Hin). lia.
    + apply Forall_app. split.
      * eapply Forall_impl; [exact Hlt|]. intros y Hy. simpl in Hy. lia.
      * constructor; [lia | constructor].
    + apply Forall_app. split; [exact Hfit|]. constructor; [exact Hrow | constructor].
  - rewrite get_all_eq. auto.
  - rewrite get_by_id_eq. auto.
  - destruct (update_cases w idea_id update_data)
      as (_ & -> & -> & _ & _ & [->|Hrep]); [auto|].
    destruct Hrep as (old & row & Hf & -> & Hid & _ & _ & _ & Hrow).
    rewrite (ids_replace _ _ _ Hid). split; [exact Hnd|]. split.
    + apply Forall_replace; [|exact Hlt].
      destruct (find_has_id_inv _ _ _ Hf) as [Ho Hin].
      rewrite Forall_forall in Hlt. specialize (Hlt old Hin). lia.
    + apply Forall_replace; [exact Hrow | exact Hfit].
  - rewrite delete_cases. simpl. split; [|split].
    + apply NoDup_ids_filter. exact Hnd.
    + apply Forall_filter_bool. exact Hlt.
    + apply Forall_filter_bool. exact Hfit.
  - rewrite get_ideas_by_status_eq. auto.
Qed.

Lemma serve_all_invariants (qs : list request) : forall w : World,
  store_ok w -> clock_monotone w -> timely w ->
  store_ok (serve_all w qs) /\ timely (serve_all w qs) /\
  clock (serve_all w qs) = clock w.
Proof.
  induction qs as [|q qs IH]; intros w Hok Hmono Ht; simpl; [auto|].
  destruct (serve_clock w q) as (Hc & _ & _).
  assert (Hmono' : clock_monotone (serve w q)) by (intros n; rewrite Hc; apply Hmono).
  destruct (IH (serve w q) (serve_store_ok w q Hok) Hmono' (serve_timely w q Hmono Ht))
    as (H1 & H2 & H3).
  split; [exact H1|]. split; [exact H2|]. congruence.
Qed.

Lemma empty_store_ok (w : World) : table w = [] -> store_ok w /\ timely w.
Proof.
  intros E. unfold store_ok, timely, ids. rewrite E. simpl.
  repeat split; constructor.
Qed.

End Invariants.

(** ** Timestamps *)

Lemma find_app_Some (p : Row.t -> bool) l1 l2 r :
  List.find p l1 = Some r -> List.find p (l1 ++ l2) = Some r.
Proof.
  induction l1 as [|x l1 IH]; simpl; [discriminate|].
  destruct (p x); [trivial | exact IH].
Qed.

Lemma find_replace_same j row l old :
  Row.id row = j -> List.find (has_id j) l = Some old ->
  List.find (has_id j) (map (fun r => if has_id j r then row else r) l) = Some row.
Proof.
  intros Hid. induction l as [|x l IH]; simpl; [discriminate|].
  destruct (has_id j x) eqn:Ex.
  - intros _. rewrite (proj2 (has_id_true j row) Hid). reflexivity.
  - rewrite Ex. exact IH.
Qed.

Lemma find_replace_other i j row l :
  Row.id row = j -> i <> j ->
  List.find (has_id i) (map (fun r => if has_id j r then row else r) l)
  = List.find (has_id i) l.
Proof.
  intros Hid Hne. induction l as [|x l IH]; simpl; [reflexivity|].
  destruct (has_id j x) eqn:Ej.
  - apply has_id_true in Ej.
    rewrite (proj2 (has_id_false i row)) by congruence.
    rewrite (proj2 (has_id_false i x)) by congruence. exact IH.
  - destruct (has_id i x); [reflexivity | exact IH].
Qed.

(** No request changes the [created_at] of an idea that is there before and
    after it. *)
Lemma serve_created_at (w : World) (q : request) (i : Z) (old new : Row.t) :
  List.find (has_id i) (table w) = Some old ->
  List.find (has_id i) (table (serve w q)) = Some new ->
  Row.created_at new = Row.created_at old.
Proof.
  intros Hold. destruct q; cbn [serve].
  - destruct (new_cases w title description idea_date status notes) as (-> & _). congruence.
  - destruct (create_cases w idea_data) as (_ & _ & _ & [[-> _]|Hnew]); [congruence|].
    destruct Hnew as (row & n & -> & _). rewrite (find_app_Some _ _ _ _ Hold). congruence.
  - rewrite get_all_eq. simpl. congruence.
  - rewrite get_by_id_eq. simpl. congruence.
  - destruct (update_cases w idea_id update_data)
      as (_ & _ & _ & _ & _ & [->|Hrep]); [congruence|].
    destruct Hrep as (old' & row & Hf & -> & Hid & Hcr & _).
    destruct (Z.eq_dec i idea_id) as [->|Hne].
    + rewrite (find_replace_same _ _ _ _ Hid Hf). intros [= <-]. congruence.
    + rewrite (find_replace_other _ _ _ _ Hid Hne). congruence.
  - rewrite delete_cases. simpl. destruct (Z.eq_dec i idea_id) as [->|Hne].
    + rewrite find_filter_same. discriminate.
    + rewrite (find_filter_other _ _ _ Hne). congruence.
  - rewrite get_ideas_by_status_eq. simpl. congruence.
Qed.

Lemma update_empty_ok (w : World) (idea_id : Z) (old : Row.t) :
  List.find (has_id idea_id) (table w) = Some old ->
  row_fits (varchar_enforced w) old ->
  fst (update_investment_idea idea_id InvestmentIdeaUpdate.empty w) =
  Return (Some {| InvestmentIdeaRead.id := Row.id old;
                  InvestmentIdeaRead.title := Row.title old;
                  InvestmentIdeaRead.description := Row.description old;
                  InvestmentIdeaRead.idea_date := Row.idea_date old;
                  InvestmentIdeaRead.status := Row.status old;
                  InvestmentIdeaRead.notes := Row.notes old;
                  InvestmentIdeaRead.created_at := Row.created_at old;
                  InvestmentIdeaRead.updated_at := utc (clock w (reads w)) |}).
Proof.
  intros Hf Hfit. rewrite (update_eq w idea_id _ old Hf).
  unfold flush, pending; simpl.
  destruct (varchar_enforced w); simpl; [|reflexivity].
  destruct (Hfit eq_refl) as (H1 & H2 & H3).
  rewrite !too_long_false by assumption. reflexivity.
Qed.

(** C9, as the code has it.  An update that succeeds returns, and stores,
    the entity with [updated_at] set to the reading of the clock and
    [created_at] as it was.  The update with no field set succeeds on every
    stored idea and changes [updated_at] only.  No request changes the
    [created_at] of an idea.  Provided the clock never goes back from one
    reading to the next, [created_at <= updated_at] on every stored row is
    kept by every request, and so holds after any sequence of requests that
    starts from an empty table. *)
Theorem update_refreshes_updated_at (w : World) :
  (forall idea_id update_data r w',
     update_investment_idea idea_id update_data w = (Return (Some r), w') ->
     exists old,
       List.find (has_id idea_id) (table w) = Some old /\
       InvestmentIdeaRead.updated_at r = utc (clock w (reads w)) /\
       InvestmentIdeaRead.created_at r = Row.created_at old /\
       get_investment_idea_by_id idea_id w' = (Return (Some r), w')) /\
  (forall idea_id old,
     List.find (has_id idea_id) (table w) = Some old ->
     row_fits (varchar_enforced w) old ->
     fst (update_investment_idea idea_id InvestmentIdeaUpdate.empty w) =
     Return (Some {| InvestmentIdeaRead.id := Row.id old;
                     InvestmentIdeaRead.title := Row.title old;
                     InvestmentIdeaRead.description := Row.description old;
                     InvestmentIdeaRead.idea_date := Row.idea_date old;
                     InvestmentIdeaRead.status := Row.status old;
                     InvestmentIdeaRead.notes := Row.notes old;
                     InvestmentIdeaRead.created_at := Row.created_at old;
                     InvestmentIdeaRead.updated_at := utc (clock w (reads w)) |})) /\
  (forall q i old new,
     List.find (has_id i) (table w) = Some old ->
     List.find (has_id i) (table (serve w q)) = Some new ->
     Row.created_at new = Row.created_at old) /\
  (clock_monotone w -> timely w -> forall q, timely (serve w q)) /\
  (clock_monotone w -> table w = [] -> forall qs,
     Forall (fun r => Row.created_at r <= Row.updated_at r) (table (serve_all w qs))).
Proof.
  split; [|split; [|split; [|split]]].
  - intros idea_id u r w' E.
    destruct (update_frame w w' idea_id u r E)
      as (old & Hf & _ & _ & _ & _ & _ & _ & Hc & Hu & Hg).
    exists old. conjs.
  - apply update_empty_ok.
  - intros q i old new. apply serve_created_at.
  - intros Hmono Ht q. apply serve_timely; assumption.
  - intros Hmono Hempty qs. destruct (empty_store_ok w Hempty) as [Hok Ht].
    destruct (serve_all_invariants qs w Hok Hmono Ht) as (_ & Htimely & _).
    eapply Forall_impl; [exact Htimely|]. intros r [Hle _]. exact Hle.
Qed.

Lemma update_refreshes_updated_at_witness :
  fst (update_investment_idea 1 InvestmentIdeaUpdate.empty world1) =
    Return (Some {| InvestmentIdeaRead.id := 1;
                    InvestmentIdeaRead.title := "Original Title";
                    InvestmentIdeaRead.description := "Original Description";
                    InvestmentIdeaRead.idea_date := 20000;
                    InvestmentIdeaRead.status := RESEARCHING;
                    InvestmentIdeaRead.notes := "Original Notes";
                    InvestmentIdeaRead.created_at := 1001;
                    InvestmentIdeaRead.updated_at := 1003 |}) /\
  Forall (fun r => Row.created_at r <= Row.updated_at r)
    (table (serve_all world0
              [NewCreate "Tesla Stock Analysis" Omitted Omitted Omitted Omitted;
               Create 0%nat; Update 1 InvestmentIdeaUpdate.empty; GetAll])).
Proof.
  destruct (update_refreshes_updated_at world1) as (_ & Hempty & _).
  destruct (update_refreshes_updated_at world0) as (_ & _ & _ & _ & Hseq).
  split.
  - apply (Hempty 1 row1 eq_refl). intros _. simpl. repeat split; lia.
  - apply (Hseq (clock0_monotone world0 eq_refl) eq_refl).
Defined.

(** C9, as the claim has it, fails: when the clock is set back between the
    two readings that a create takes for its stamps, the idea is stored with
    [created_at = 5001] and [updated_at = 1002]. *)
Lemma created_after_updated_on_a_clock_set_back :
  exists r w' row,
    create_investment_idea 0%nat world_set_back = (Return r, w') /\
    table w' = [row] /\
    Row.created_at row = 5001 /\ Row.updated_at row = 1002 /\
    ~ (Row.created_at row <= Row.updated_at row) /\
    ~ (InvestmentIdeaRead.created_at r <= InvestmentIdeaRead.updated_at r).
Proof.
  eexists _, _, _. split; [vm_compute; reflexivity|].
  split; [reflexivity|]. split; [reflexivity|]. split; [reflexivity|].
  split; simpl; lia.
Qed.

(** * Further properties of the service *)

(** ** Reading by id, found *)

(** X1.  [get_investment_idea_by_id] answers [None] exactly for the ids that
    no row carries; for an id that a row carries it returns the Read view of
    a stored row with that id. *)
Theorem get_by_id_found (w : World) (idea_id : Z) :
  (fst (get_investment_idea_by_id idea_id w) = Return None <-> (idea_id ∉ ids w)) /\
  ((idea_id ∈ ids w) ->
   exists row,
     In row (table w) /\ Row.id row = idea_id /\
     get_investment_idea_by_id idea_id w = (Return (Some (read_of_row row)), w) /\
     InvestmentIdeaRead.id (read_of_row row) = idea_id).
Proof.
  split; [split|].
  - rewrite get_by_id_eq. simpl. intros E Hin.
    destruct (find_has_id_Some _ _ Hin) as (r & Hf & _). rewrite Hf in E. discriminate.
  - intros Hn. rewrite get_by_id_eq, (find_has_id_None _ _ Hn). reflexivity.
  - intros Hin. destruct (find_has_id_Some _ _ Hin) as (r & Hf & Hid & Hel).
    exists r. rewrite get_by_id_eq, Hf. simpl.
    split; [apply list_elem_of_In; exact Hel|]. auto.
Qed.

Lemma get_by_id_found_witness :
  (1 ∈ ids world2) /\
  get_investment_idea_by_id 2 world2 = (Return (Some (read_of_row row2)), world2).
Proof.
  split; [left|].
  destruct (proj2 (get_by_id_found world2 2)) as (row & Hin & Hid & E & _).
  { right. left. }
  destruct Hin as [<-|[<-|[]]]; [discriminate Hid | exact E].
Defined.

(** ** Updates, field by field *)

Lemma merged_cases {T} (k : kwarg (option T)) (old x : T) :
  merged k (Some old) = Some x ->
  (k = Omitted /\ x = old) \/ k = Given (Some x).
Proof.
  destruct k as [|[v|]]; simpl; intros [= <-]; auto.
Qed.

(** X2.  A successful update returns the stored idea with each field that
    was left unset as it was, and each field that was set holding the value
    given; the id and [created_at] are as they were. *)
Theorem update_applies_set_fields (w w' : World) (idea_id : Z)
    (u : InvestmentIdeaUpdate.t) (r : InvestmentIdeaRead.t) :
  update_investment_idea idea_id u w = (Return (Some r), w') ->
  exists old,
    In old (table w) /\ Row.id old = idea_id /\
    InvestmentIdeaRead.id r = idea_id /\
    InvestmentIdeaRead.created_at r = Row.created_at old /\
    (InvestmentIdeaUpdate.title u = Omitted /\
       InvestmentIdeaRead.title r = Row.title old \/
     InvestmentIdeaUpdate.title u = Given (Some (InvestmentIdeaRead.title r))) /\
    (InvestmentIdeaUpdate.description u = Omitted /\
       InvestmentIdeaRead.description r = Row.description old \/
     InvestmentIdeaUpdate.description u = Given (Some (InvestmentIdeaRead.description r))) /\
    (InvestmentIdeaUpdate.idea_date u = Omitted /\
       InvestmentIdeaRead.idea_date r = Row.idea_date old \/
     InvestmentIdeaUpdate.idea_date u = Given (Some (InvestmentIdeaRead.idea_date r))) /\
    (InvestmentIdeaUpdate.status u = Omitted /\
       InvestmentIdeaRead.status r = Row.status old \/
     InvestmentIdeaUpdate.status u = Given (Some (InvestmentIdeaRead.status r))) /\
    (InvestmentIdeaUpdate.notes u = Omitted /\
       InvestmentIdeaRead.notes r = Row.notes old \/
     InvestmentIdeaUpdate.notes u = Given (Some (InvestmentIdeaRead.notes r))).
Proof.
  intros E.
  destruct (update_frame w w' idea_id u r E)
    as (old & Hf & Hid & Ht & Hd & Hdt & Hs & Hn & Hc & _).
  destruct (find_has_id_inv _ _ _ Hf) as [Hoid Hin].
  exists old. split; [apply list_elem_of_In; exact Hin|].
  split; [exact Hoid|]. split; [exact Hid|]. split; [exact Hc|].
  repeat split_and; apply merged_cases; assumption.
Qed.

Lemma update_applies_set_fields_witness :
  fst (update_investment_idea 1 update_status_only world2) = Return (Some read1_invested) /\
  exists old,
    In old (table world2) /\ Row.id old = 1 /\
    InvestmentIdeaRead.title read1_invested = Row.title old /\
    InvestmentIdeaUpdate.status update_status_only
      = Given (Some (InvestmentIdeaRead.status read1_invested)).
Proof.
  split; [reflexivity|].
  destruct (update_applies_set_fields world2
              (snd (update_investment_idea 1 update_status_only world2))
              1 update_status_only read1_invested eq_refl)
    as (old & Hin & Hid & _ & _ & Ht & _ & _ & Hs & _).
  exists old. split; [exact Hin|]. split; [exact Hid|].
  destruct Ht as [[_ Ht]|Ht]; [|discriminate Ht].
  destruct Hs as [[Hs _]|Hs]; [discriminate Hs|].
  split; [exact Ht | exact Hs].
Defined.

(** X3.  An update, whatever its outcome, leaves every other idea as it
    reads by id. *)
Theorem update_other_ideas (w : World) (idea_id j : Z) (u : InvestmentIdeaUpdate.t) :
  j <> idea_id ->
  fst (get_investment_idea_by_id j (snd (update_investment_idea idea_id u w))) =
  fst (get_investment_idea_by_id j w).
Proof.
  intros Hne. rewrite !get_by_id_eq. simpl.
  destruct (update_cases w idea_id u) as (_ & _ & _ & _ & _ & [->|Hrep]); [reflexivity|].
  destruct Hrep as (old & row & _ & -> & Hid & _).
  rewrite (find_replace_other _ _ _ _ Hid Hne). reflexivity.
Qed.

Lemma update_other_ideas_witness :
  fst (get_investment_idea_by_id 2 (snd (update_investment_idea 1 update_status_only world2)))
  = Return (Some (read_of_row row2)).
Proof.
  rewrite (update_other_ideas world2 1 2 update_status_only); [reflexivity | discriminate].
Defined.

(** ** When an update goes through *)

Lemma merged_Some {T} (k : kwarg (option T)) (old : T) :
  k <> Given None -> exists x, merged k (Some old) = Some x /\
                               (k = Omitted /\ x = old \/ k = Given (Some x)).
Proof.
  destruct k as [|[v|]]; simpl; intros H; [eauto | eauto | congruence].
Qed.

(** X4.  On a stored idea, an update whose set fields hold values (none is
    [None]) within the lengths of the Update view goes through: it returns
    an entity and raises nothing. *)
Theorem update_succeeds (w : World) (idea_id : Z) (u : InvestmentIdeaUpdate.t) (old : Row.t) :
  List.find (has_id idea_id) (table w) = Some old ->
  row_fits (varchar_enforced w) old ->
  InvestmentIdeaUpdate.valid u ->
  ~ sets_None u ->
  exists r w', update_investment_idea idea_id u w = (Return (Some r), w').
Proof.
  intros Hf Hfit (Vt & Vd & Vn) Hnone.
  rewrite (update_eq w idea_id u old Hf).
  destruct (merged_Some (InvestmentIdeaUpdate.title u) (Row.title old))
    as (t & Et & Ht); [intros E; apply Hnone; unfold sets_None; tauto|].
  destruct (merged_Some (InvestmentIdeaUpdate.description u) (Row.description old))
    as (d & Ed & Hd); [intros E; apply Hnone; unfold sets_None; tauto|].
  destruct (merged_Some (InvestmentIdeaUpdate.idea_date u) (Row.idea_date old))
    as (dt & Edt & _); [intros E; apply Hnone; unfold sets_None; tauto|].
  destruct (merged_Some (InvestmentIdeaUpdate.status u) (Row.status old))
    as (s & Es & _); [intros E; apply Hnone; unfold sets_None; tauto|].
  destruct (merged_Some (InvestmentIdeaUpdate.notes u) (Row.notes old))
    as (n & En & Hn); [intros E; apply Hnone; unfold sets_None; tauto|].
  unfold flush, pending; simpl. rewrite Et, Ed, Edt, Es, En.
  destruct (varchar_enforced w) eqn:Eenf; simpl; [|eauto].
  destruct (Hfit eq_refl) as (F1 & F2 & F3).
  assert (Lt : (String.length t <= 200)%nat).
  { destruct Ht as [[_ ->]|E]; [exact F1|]. rewrite E in Vt. exact Vt. }
  assert (Ld : (String.length d <= 2000)%nat).
  { destruct Hd as [[_ ->]|E]; [exact F2|]. rewrite E in Vd. exact Vd. }
  assert (Ln : (String.length n <= 5000)%nat).
  { destruct Hn as [[_ ->]|E]; [exact F3|]. rewrite E in Vn. exact Vn. }
  rewrite !too_long_false by assumption. simpl. eauto.
Qed.

Lemma row1_fits b : row_fits b row1.
Proof. intros _. simpl. repeat split; lia. Qed.

Lemma update_succeeds_witness :
  exists r w', update_investment_idea 1 update_status_only world2 = (Return (Some r), w').
Proof.
  apply (update_succeeds world2 1 update_status_only row1 eq_refl (row1_fits _)).
  - unfold InvestmentIdeaUpdate.valid. simpl. auto.
  - unfold sets_None. simpl. intros [H|[H|[H|[H|H]]]]; discriminate.
Defined.

(** X5.  On a stored id, an update that sets any field to [None] is
    refused by the store: the call raises an integrity error, returns no
    entity, and every idea, the one addressed included, reads as it did. *)
Theorem update_None_refused (w : World) (idea_id : Z) (u : InvestmentIdeaUpdate.t) :
  (idea_id ∈ ids w) ->
  sets_None u ->
  fst (update_investment_idea idea_id u w) = Raise IntegrityError /\
  table (snd (update_investment_idea idea_id u w)) = table w /\
  (forall j, fst (get_investment_idea_by_id j (snd (update_investment_idea idea_id u w)))
             = fst (get_investment_idea_by_id j w)).
Proof.
  intros Hin Hnone. rewrite (update_sets_None_raises w idea_id u Hin Hnone). simpl.
  split; [reflexivity|]. split; [reflexivity|]. intros j. rewrite !get_by_id_eq. reflexivity.
Qed.

Lemma update_None_refused_witness :
  (1 ∈ ids world2) /\ sets_None update_title_and_None /\
  fst (update_investment_idea 1 update_title_and_None world2) = Raise IntegrityError /\
  table (snd (update_investment_idea 1 update_title_and_None world2)) = [row1; row2].
Proof.
  assert (Hin : 1 ∈ ids world2) by left.
  assert (Hn : sets_None update_title_and_None) by (right; left; reflexivity).
  split; [exact Hin|]. split; [exact Hn|].
  destruct (update_None_refused world2 1 update_title_and_None Hin Hn) as (H1 & H2 & _).
  split; [exact H1 | exact H2].
Defined.

(** ** Create, then read *)

Lemma find_app_fresh i l row :
  (i ∉ map Row.id l) -> Row.id row = i -> List.find (has_id i) (l ++ [row]) = Some row.
Proof.
  intros Hn Hid. rewrite (find_app_None _ _ _ (find_has_id_None _ _ Hn)). simpl.
  rewrite (proj2 (has_id_true i row) Hid). reflexivity.
Qed.

(** X6.  In a store whose keys are unique and below the sequence, creating a
    valid view returns the entity with the title, description, status and
    notes of the view; reading its id back gives that entity; the listing
    holds it and is one longer; every idea that was stored reads as before;
    and the store still has unique keys below the sequence. *)
Theorem create_round_trip (w : World) (idea_data : loc) (v : InvestmentIdeaCreate.t) :
  heap w !! idea_data = Some v ->
  InvestmentIdeaCreate.valid v ->
  store_ok w ->
  exists r w' all,
    create_investment_idea idea_data w = (Return r, w') /\
    InvestmentIdeaRead.title r = InvestmentIdeaCreate.title v /\
    InvestmentIdeaRead.description r = InvestmentIdeaCreate.description v /\
    InvestmentIdeaRead.status r = InvestmentIdeaCreate.status v /\
    InvestmentIdeaRead.notes r = InvestmentIdeaCreate.notes v /\
    get_investment_idea_by_id (InvestmentIdeaRead.id r) w' = (Return (Some r), w') /\
    get_all_investment_ideas w' = (Return all, w') /\
    In r all /\ length all = S (length (table w)) /\
    (forall j, (j ∈ ids w) ->
       fst (get_investment_idea_by_id j w') = fst (get_investment_idea_by_id j w)) /\
    store_ok w'.
Proof.
  intros Hv Hval Hok. pose proof (create_eq w idea_data v Hv Hval) as E. simpl in E.
  destruct Hok as (Hnd & Hlt & Hfit).
  assert (Hfresh : id_seq w ∉ ids w).
  { unfold ids. intros Hel. apply list_elem_of_In, in_map_iff in Hel as (x & Hx & Hel).
    rewrite List.Forall_forall in Hlt. specialize (Hlt x Hel). lia. }
  eexists _, _, _. split; [exact E|]. simpl. conjs.
  - rewrite get_by_id_eq. simpl. rewrite find_app_fresh; auto.
  - apply get_all_eq.
  - simpl. apply in_map. eapply Permutation_in.
    + symmetry. apply order_by_Permutation.
    + apply in_or_app. right. left. reflexivity.
  - simpl. rewrite length_map, (Permutation_length (order_by_Permutation _)).
    rewrite length_app. simpl. lia.
  - intros j Hj. rewrite !get_by_id_eq. simpl.
    destruct (find_has_id_Some _ _ Hj) as (x & Hf & _).
    rewrite (find_app_Some _ _ _ _ Hf), Hf. reflexivity.
  - pose proof (serve_store_ok w (Create idea_data) (conj Hnd (conj Hlt Hfit))) as H.
    cbn [serve] in H. rewrite E in H. exact H.
Qed.

Lemma world_tesla_ok : store_ok world_tesla.
Proof. apply empty_store_ok. reflexivity. Qed.

Lemma create_round_trip_witness :
  exists r w',
    create_investment_idea 0%nat world_tesla = (Return r, w') /\
    InvestmentIdeaRead.title r = "Tesla Stock Analysis"%string /\
    get_investment_idea_by_id (InvestmentIdeaRead.id r) w' = (Return (Some r), w').
Proof.
  destruct (create_round_trip world_tesla 0%nat tesla eq_refl tesla_valid world_tesla_ok)
    as (r & w' & all & E & Ht & _ & _ & _ & Hg & _).
  exists r, w'. split; [exact E|]. split; [exact Ht | exact Hg].
Defined.

(** X7.  A create that finds a date in the caller's view takes it as it is:
    the entity returned for a valid view carries that date, and no object of
    the caller is written to, whether the create returns or raises. *)
Theorem create_keeps_given_date (w : World) (idea_data : loc)
    (v : InvestmentIdeaCreate.t) (d : date) :
  heap w !! idea_data = Some v ->
  InvestmentIdeaCreate.idea_date v = Some d ->
  heap (snd (create_investment_idea idea_data w)) = heap w /\
  (InvestmentIdeaCreate.valid v ->
   exists r, fst (create_investment_idea idea_data w) = Return r /\
             InvestmentIdeaRead.idea_date r = d).
Proof.
  intros Hv Ed. split.
  - unfold create_investment_idea, bind, getobj. rewrite Hv, Ed. simpl. rewrite Hv.
    unfold InvestmentIdea_new, bind, datetime_utcnow, ret, session_add_commit_refresh, lift.
    simpl. destruct (flush _ _ _); reflexivity.
  - intros Hval. rewrite (create_eq w idea_data v Hv Hval). simpl.
    eexists. split; [reflexivity|]. simpl. rewrite Ed. reflexivity.
Qed.

Lemma create_keeps_given_date_witness :
  heap (snd (create_investment_idea 0%nat world_apple)) = [apple] /\
  exists r, fst (create_investment_idea 0%nat world_apple) = Return r /\
            InvestmentIdeaRead.idea_date r = 19737.
Proof.
  destruct (create_keeps_given_date world_apple 0%nat apple 19737 eq_refl eq_refl)
    as [Hh Hr].
  split; [exact Hh|]. apply Hr.
  unfold InvestmentIdeaCreate.valid. simpl. repeat split; lia.
Defined.

(** ** Deleting, seen from the listing *)

Lemma filter_read_other i l :
  List.filter (other_id i) (map read_of_row l) =
  map read_of_row (List.filter (fun r => negb (has_id i r)) l).
Proof.
  induction l as [|x l IH]; simpl; [reflexivity|].
  unfold other_id at 1, has_id at 1. simpl.
  destruct (Row.id x =? i); simpl; rewrite IH; reflexivity.
Qed.

Lemma filter_one_out i l :
  NoDup (map Row.id l) -> (i ∈ map Row.id l) ->
  S (length (List.filter (fun r => negb (has_id i r)) l)) = length l.
Proof.
  induction l as [|x l IH]; simpl; intros Hnd Hin; [inversion Hin|].
  apply NoDup_cons in Hnd as [Hx Hnd].
  destruct (has_id i x) eqn:E; simpl.
  - apply has_id_true in E. rewrite E in Hx.
    rewrite (filter_no_match _ _ Hx). reflexivity.
  - apply has_id_false in E. apply elem_of_cons in Hin as [Hin|Hin]; [congruence|].
    rewrite (IH Hnd Hin). reflexivity.
Qed.

(** *** Listings without ties

    What [ORDER BY created_at DESC] promises is a permutation of the rows in
    descending order.  When no two rows share their [created_at] there is
    one such list only, whatever the store does with ties. *)

Lemma same_stamp_same_row (l : list Row.t) x y :
  NoDup (map Row.created_at l) -> In x l -> In y l ->
  Row.created_at x = Row.created_at y -> x = y.
Proof.
  induction l as [|z l IH]; simpl; intros Hnd Hx Hy E; [contradiction|].
  apply NoDup_cons in Hnd as [Hz Hnd].
  destruct Hx as [<-|Hx], Hy as [<-|Hy]; auto.
  - exfalso. apply Hz. rewrite E. apply list_elem_of_In, in_map. exact Hy.
  - exfalso. apply Hz. rewrite <- E. apply list_elem_of_In, in_map. exact Hx.
Qed.

Lemma sorted_desc_unique (l1 : list Row.t) : forall l2,
  NoDup (map Row.created_at l1) -> Permutation l1 l2 ->
  StronglySorted row_newer_first l1 -> StronglySorted row_newer_first l2 ->
  l1 = l2.
Proof.
  induction l1 as [|x l1 IH]; intros l2 Hnd Hp H1 H2.
  - apply Permutation_nil in Hp. congruence.
  - destruct l2 as [|y l2]; [symmetry in Hp; apply Permutation_nil in Hp; discriminate|].
    assert (Exy : x = y).
    { apply (same_stamp_same_row (x :: l1)); [exact Hnd | left; reflexivity | |].
      - eapply Permutation_in; [symmetry; exact Hp | left; reflexivity].
      - inversion H1 as [|? ? _ Hx]; subst. inversion H2 as [|? ? _ Hy]; subst.
        rewrite List.Forall_forall in Hx, Hy. unfold row_newer_first in Hx, Hy.
        assert (Hyx : Row.created_at y <= Row.created_at x).
        { assert (Hin : In y (x :: l1))
            by (eapply Permutation_in; [symmetry; exact Hp | left; reflexivity]).
          destruct Hin as [->|Hin]; [lia | exact (Hx y Hin)]. }
        assert (Hxy : Row.created_at x <= Row.created_at y).
        { assert (Hin : In x (y :: l2))
            by (eapply Permutation_in; [exact Hp | left; reflexivity]).
          destruct Hin as [->|Hin]; [lia | exact (Hy x Hin)]. }
        lia. }
    subst y. f_equal. apply Permutation_cons_inv in Hp.
    apply NoDup_cons in Hnd as [_ Hnd].
    inversion H1; subst. inversion H2; subst. apply IH; assumption.
Qed.

Lemma filter_Permutation (p : Row.t -> bool) l1 l2 :
  Permutation l1 l2 -> Permutation (List.filter p l1) (List.filter p l2).
Proof.
  induction 1 as [|x l1 l2 _ IH|x y l|l1 l2 l3 _ IH1 _ IH2]; simpl.
  - reflexivity.
  - destruct (p x); [apply perm_skip|]; exact IH.
  - destruct (p x), (p y); try reflexivity. apply perm_swap.
  - etransitivity; eassumption.
Qed.

Lemma filter_sorted (p : Row.t -> bool) l :
  StronglySorted row_newer_first l -> StronglySorted row_newer_first (List.filter p l).
Proof.
  induction 1 as [|x l Hs IH Hx]; simpl; [constructor|].
  destruct (p x); [|exact IH]. constructor; [exact IH|].
  apply List.Forall_forall. intros y Hy. apply List.filter_In in Hy as [Hy _].
  rewrite List.Forall_forall in Hx. exact (Hx y Hy).
Qed.

Lemma NoDup_stamps_filter (p : Row.t -> bool) l :
  NoDup (map Row.created_at l) -> NoDup (map Row.created_at (List.filter p l)).
Proof.
  induction l as [|x l IH]; simpl; [auto|]. intros Hnd.
  apply NoDup_cons in Hnd as [Hx Hnd].
  destruct (p x); simpl; [|exact (IH Hnd)].
  apply NoDup_cons. split; [|exact (IH Hnd)].
  intros Hin. apply Hx. apply list_elem_of_In, in_map_iff in Hin as (y & Hy & Hin).
  apply List.filter_In in Hin as [Hin _].
  apply list_elem_of_In, in_map_iff. exists y. split; assumption.
Qed.

(** A [WHERE] before or after the ordering, when no two rows tie. *)
Lemma order_by_filter_no_ties (p : Row.t -> bool) l :
  NoDup (map Row.created_at l) ->
  order_by_created_at_desc (List.filter p l) = List.filter p (order_by_created_at_desc l).
Proof.
  intros Hnd. apply sorted_desc_unique.
  - rewrite (Permutation_map Row.created_at (order_by_Permutation (List.filter p l))).
    apply NoDup_stamps_filter, Hnd.
  - rewrite order_by_Permutation. apply filter_Permutation.
    symmetry. apply order_by_Permutation.
  - apply order_by_sorted.
  - apply filter_sorted, order_by_sorted.
Qed.

(** X8.  After a delete, the listing holds the entities of the listing of
    before except the one of that id, each once, most recently created
    first; when no two stored ideas share their [created_at], it is the
    listing of before with that entity struck out, the others in the order
    they had.  A deleted id is no longer found, so deleting it again returns
    [False] and changes nothing; and in a store with unique keys, deleting a
    stored id makes the listing exactly one shorter. *)
Theorem delete_listing (w : World) (idea_id : Z) :
  let w' := snd (delete_investment_idea idea_id w) in
  (exists before after,
     get_all_investment_ideas w = (Return before, w) /\
     get_all_investment_ideas w' = (Return after, w') /\
     Permutation after (List.filter (other_id idea_id) before) /\
     StronglySorted newer_first after /\
     (NoDup (map Row.created_at (table w)) ->
      after = List.filter (other_id idea_id) before)) /\
  delete_investment_idea idea_id w' = (Return false, w') /\
  (NoDup (ids w) -> (idea_id ∈ ids w) ->
   exists before after,
     fst (get_all_investment_ideas w) = Return before /\
     fst (get_all_investment_ideas w') = Return after /\
     S (length after) = length before).
Proof.
  intros w'. subst w'. rewrite delete_cases. split; [|split].
  - eexists _, _. split; [apply get_all_eq|]. split; [apply get_all_eq|]. simpl.
    rewrite filter_read_other. split; [|split].
    + apply Permutation_map. rewrite order_by_Permutation.
      apply filter_Permutation. symmetry. apply order_by_Permutation.
    + apply map_sorted, order_by_sorted.
    + intros Hnd. rewrite (order_by_filter_no_ties _ _ Hnd). reflexivity.
  - unfold delete_investment_idea, bind, session_get. simpl.
    rewrite find_filter_same. reflexivity.
  - intros Hnd Hin. eexists _, _. rewrite !get_all_eq. simpl.
    split; [reflexivity|]. split; [reflexivity|].
    rewrite !length_map, !(Permutation_length (order_by_Permutation _)).
    apply filter_one_out; assumption.
Qed.

Lemma world2_NoDup : NoDup (ids world2).
Proof.
  unfold ids. simpl. apply NoDup_cons. split.
  - intros H. apply list_elem_of_singleton in H. discriminate.
  - apply NoDup_singleton.
Qed.

Lemma world2_no_ties : NoDup (map Row.created_at (table world2)).
Proof.
  simpl. apply NoDup_cons. split.
  - intros H. apply list_elem_of_singleton in H. discriminate.
  - apply NoDup_singleton.
Qed.

Lemma delete_listing_witness :
  (exists before after,
     fst (get_all_investment_ideas world2) = Return before /\
     fst (get_all_investment_ideas (snd (delete_investment_idea 1 world2))) = Return after /\
     S (length after) = length before) /\
  fst (get_all_investment_ideas (snd (delete_investment_idea 1 world2)))
    = Return [read_of_row row2].
Proof.
  split.
  - apply (proj2 (proj2 (delete_listing world2 1)) world2_NoDup). left.
  - destruct (proj1 (delete_listing world2 1))
      as (before & after & Eb & Ea & _ & _ & Heq).
    rewrite Ea. simpl. rewrite (Heq world2_no_ties).
    rewrite get_all_eq in Eb. injection Eb as <-. reflexivity.
Defined.

(** ** The four statuses *)

Lemma filter_status_cons s x l :
  List.filter (row_has_status s) (x :: l) =
  if bool_decide (Row.status x = s)
  then x :: List.filter (row_has_status s) l
  else List.filter (row_has_status s) l.
Proof. reflexivity. Qed.

Lemma filter_status_Permutation (l : list Row.t) :
  Permutation l
    (List.filter (row_has_status RESEARCHING) l ++
     List.filter (row_has_status WATCHLIST) l ++
     List.filter (row_has_status INVESTED) l ++
     List.filter (row_has_status REJECTED) l).
Proof.
  induction l as [|x l IH]; [reflexivity|].
  rewrite !filter_status_cons.
  destruct (Row.status x); repeat (case_bool_decide; try congruence);
    rewrite <- ?app_comm_cons, <- ?Permutation_middle; apply perm_skip; exact IH.
Qed.

(** X9.  The four listings by status split the full listing: put one after
    the other they hold exactly the entities of [get_all_investment_ideas],
    each once, so their lengths add up to its length; and an entity in the
    listing of a status has that status. *)
Theorem status_listings_partition (w : World) :
  exists all lr lw li lj,
    get_all_investment_ideas w = (Return all, w) /\
    get_ideas_by_status RESEARCHING w = (Return lr, w) /\
    get_ideas_by_status WATCHLIST w = (Return lw, w) /\
    get_ideas_by_status INVESTED w = (Return li, w) /\
    get_ideas_by_status REJECTED w = (Return lj, w) /\
    Permutation all (lr ++ lw ++ li ++ lj) /\
    length all = (length lr + length lw + length li + length lj)%nat /\
    Forall (fun r => InvestmentIdeaRead.status r = RESEARCHING) lr /\
    Forall (fun r => InvestmentIdeaRead.status r = WATCHLIST) lw /\
    Forall (fun r => InvestmentIdeaRead.status r = INVESTED) li /\
    Forall (fun r => InvestmentIdeaRead.status r = REJECTED) lj.
Proof.
  assert (Hst : forall s, Forall (fun r => InvestmentIdeaRead.status r = s)
            (map read_of_row
               (order_by_created_at_desc (List.filter (row_has_status s) (table w))))).
  { intros s. apply List.Forall_forall. intros r Hr.
    apply in_map_iff in Hr as (x & <- & Hx).
    apply (Permutation_in _ (order_by_Permutation _)) in Hx.
    apply List.filter_In in Hx as [_ Hx]. unfold row_has_status in Hx.
    apply bool_decide_eq_true in Hx. exact Hx. }
  assert (Hperm : Permutation
            (map read_of_row (order_by_created_at_desc (table w)))
            (map read_of_row (order_by_created_at_desc
                                (List.filter (row_has_status RESEARCHING) (table w))) ++
             map read_of_row (order_by_created_at_desc
                                (List.filter (row_has_status WATCHLIST) (table w))) ++
             map read_of_row (order_by_created_at_desc
                                (List.filter (row_has_status INVESTED) (table w))) ++
             map read_of_row (order_by_created_at_desc
                                (List.filter (row_has_status REJECTED) (table w))))).
  { rewrite <- !map_app. apply Permutation_map.
    rewrite !order_by_Permutation. apply filter_status_Permutation. }
  eexists _, _, _, _, _.
  split; [apply get_all_eq|]. do 4 (split; [apply get_ideas_by_status_eq|]).
  split; [exact Hperm|]. split.
  - rewrite (Permutation_length Hperm), !length_app. lia.
  - conjs.
Qed.

Lemma status_listings_partition_witness :
  exists all lw,
    get_all_investment_ideas world2 = (Return all, world2) /\
    get_ideas_by_status WATCHLIST world2 = (Return lw, world2) /\
    length all = 2%nat /\ length lw = 1%nat.
Proof.
  destruct (status_listings_partition world2)
    as (all & lr & lw & li & lj & Ea & _ & Ew & _).
  exists all, lw. split; [exact Ea|]. split; [exact Ew|].
  rewrite get_all_eq in Ea. rewrite get_ideas_by_status_eq in Ew.
  injection Ea as <-. injection Ew as <-. split; reflexivity.
Defined.

(** ** Updating, seen from the listing *)

Lemma map_sorted_same_stamps (f : Row.t -> Row.t) l :
  (forall x, In x l -> Row.created_at (f x) = Row.created_at x) ->
  StronglySorted row_newer_first l -> StronglySorted row_newer_first (map f l).
Proof.
  intros Hf. induction 1 as [|x l Hs IH Hx]; simpl; [constructor|].
  constructor.
  - apply IH. intros y Hy. apply Hf. right. exact Hy.
  - apply List.Forall_forall. intros y Hy. apply in_map_iff in Hy as (z & <- & Hz).
    rewrite List.Forall_forall in Hx. specialize (Hx z Hz). unfold row_newer_first in *.
    rewrite (Hf x (or_introl eq_refl)), (Hf z (or_intror Hz)). exact Hx.
Qed.

(** A change of rows that keeps their [created_at], before or after the
    ordering, when no two rows tie. *)
Lemma order_by_map_no_ties (f : Row.t -> Row.t) l :
  NoDup (map Row.created_at l) ->
  (forall x, In x l -> Row.created_at (f x) = Row.created_at x) ->
  order_by_created_at_desc (map f l) = map f (order_by_created_at_desc l).
Proof.
  intros Hnd Hf.
  assert (Hstamps : map Row.created_at (map f l) = map Row.created_at l).
  { rewrite map_map. apply map_ext_in. exact Hf. }
  apply sorted_desc_unique.
  - rewrite (Permutation_map Row.created_at (order_by_Permutation (map f l))), Hstamps.
    exact Hnd.
  - rewrite order_by_Permutation. apply Permutation_map.
    symmetry. apply order_by_Permutation.
  - apply order_by_sorted.
  - apply map_sorted_same_stamps; [|apply order_by_sorted].
    intros x Hx. apply Hf. eapply Permutation_in; [apply order_by_Permutation | exact Hx].
Qed.

Lemma same_id_same_row (l : list Row.t) x y :
  NoDup (map Row.id l) -> In x l -> In y l -> Row.id x = Row.id y -> x = y.
Proof.
  induction l as [|z l IH]; simpl; intros Hnd Hx Hy E; [contradiction|].
  apply NoDup_cons in Hnd as [Hz Hnd].
  destruct Hx as [<-|Hx], Hy as [<-|Hy]; auto.
  - exfalso. apply Hz. rewrite E. apply list_elem_of_In, in_map. exact Hy.
  - exfalso. apply Hz. rewrite <- E. apply list_elem_of_In, in_map. exact Hx.
Qed.

(** X10.  In a store with unique keys, a successful update leaves the
    listing with the same entities but for the updated one, which replaces
    the old one.  When no two stored ideas share their [created_at], the
    listing changes in one place only: the updated entity stands where the
    old one stood, and the other entities and their order are as before (the
    order is by [created_at], which an update does not touch). *)
Theorem update_keeps_position (w w' : World) (idea_id : Z) (u : InvestmentIdeaUpdate.t)
    (r : InvestmentIdeaRead.t) :
  NoDup (ids w) ->
  update_investment_idea idea_id u w = (Return (Some r), w') ->
  exists before after,
    get_all_investment_ideas w = (Return before, w) /\
    get_all_investment_ideas w' = (Return after, w') /\
    Permutation after (map (replace_read idea_id r) before) /\
    length after = length before /\
    (NoDup (map Row.created_at (table w)) ->
     after = map (replace_read idea_id r) before).
Proof.
  intros Hnd E. destruct (List.find (has_id idea_id) (table w)) as [old|] eqn:Hf.
  2:{ unfold update_investment_idea, bind, session_get in E. rewrite Hf in E. discriminate. }
  destruct (find_has_id_inv _ _ _ Hf) as [Hid Hin]. apply list_elem_of_In in Hin.
  rewrite (update_eq w idea_id u old Hf) in E.
  destruct (flush _ _ _) as [row|] eqn:Hfl; [|discriminate].
  injection E as <- <-.
  destruct (flush_Return_inv _ _ _ _ Hfl) as (_ & _ & _ & _ & _ & Hrid & Hc & _).
  simpl in Hc.
  set (f := fun x : Row.t => if has_id (Row.id old) x then row else x).
  assert (Hstamp : forall x, In x (table w) -> Row.created_at (f x) = Row.created_at x).
  { intros x Hx. unfold f. destruct (has_id (Row.id old) x) eqn:Ex; [|reflexivity].
    apply has_id_true in Ex.
    rewrite (same_id_same_row (table w) x old Hnd Hx Hin Ex). exact Hc. }
  assert (Hread : forall l, map read_of_row (map f l)
                            = map (replace_read idea_id (read_of_row row)) (map read_of_row l)).
  { intros l. rewrite !map_map. apply map_ext. intros x.
    unfold f, replace_read, has_id. simpl. rewrite Hid.
    destruct (Row.id x =? idea_id); reflexivity. }
  eexists _, _. split; [apply get_all_eq|]. split; [apply get_all_eq|]. simpl.
  fold f. split; [|split].
  - rewrite <- Hread. apply Permutation_map. rewrite order_by_Permutation.
    apply Permutation_map. symmetry. apply order_by_Permutation.
  - rewrite !length_map, !(Permutation_length (order_by_Permutation _)).
    apply length_map.
  - intros Hties. rewrite (order_by_map_no_ties f _ Hties Hstamp). apply Hread.
Qed.

Lemma update_keeps_position_witness :
  get_all_investment_ideas world2 = (Return [read_of_row row2; read_of_row row1], world2) /\
  fst (get_all_investment_ideas (snd (update_investment_idea 1 update_status_only world2)))
    = Return [read_of_row row2; read1_invested].
Proof.
  destruct (update_keeps_position world2
              (snd (update_investment_idea 1 update_status_only world2))
              1 update_status_only read1_invested world2_NoDup eq_refl)
    as (before & after & Eb & Ea & _ & _ & Heq).
  split; [reflexivity|]. rewrite Ea. simpl. rewrite (Heq world2_no_ties).
  rewrite get_all_eq in Eb. injection Eb as <-. reflexivity.
Defined.

(** ** Any sequence of requests *)

(** X11.  Starting from an empty table, after any sequence of requests
    (views built, creates, reads, updates, deletes), whatever each returned
    or raised, no two stored ideas have the same id, every stored id reads
    back as a stored entity of that id, and every stored row is within the
    column lengths its engine enforces. *)
Theorem requests_keep_ids_unique (w : World) (qs : list request) :
  table w = [] ->
  let w' := serve_all w qs in
  NoDup (ids w') /\
  Forall (row_fits (varchar_enforced w')) (table w') /\
  (forall row, In row (table w') ->
     get_investment_idea_by_id (Row.id row) w' = (Return (Some (read_of_row row)), w')).
Proof.
  intros Hempty w'. subst w'.
  destruct (empty_store_ok w Hempty) as [Hok _].
  assert (Hok' : store_ok (serve_all w qs)).
  { clear Hempty. revert w Hok. induction qs as [|q qs IH]; intros w Hok; simpl; [exact Hok|].
    apply IH. apply serve_store_ok. exact Hok. }
  destruct Hok' as (Hnd & _ & Hfit). split; [exact Hnd|]. split; [exact Hfit|].
  intros row Hin. rewrite get_by_id_eq. f_equal. f_equal.
  destruct (find_has_id_Some (Row.id row) (table (serve_all w qs))) as (x & Hf & Hid & Hx).
  { apply list_elem_of_In, in_map. exact Hin. }
  rewrite Hf. simpl. f_equal. f_equal.
  apply (same_id_same_row (table (serve_all w qs))); auto.
  apply list_elem_of_In. exact Hx.
Qed.

Lemma requests_keep_ids_unique_witness :
  NoDup (ids (serve_all world0
                [NewCreate "First Idea" Omitted Omitted Omitted Omitted; Create 0%nat;
                 NewCreate "Second Idea" Omitted Omitted Omitted Omitted; Create 1%nat;
                 Delete 1; Create 0%nat])).
Proof.
  exact (proj1 (requests_keep_ids_unique world0 _ eq_refl)).
Defined.

(** ** What a Create view accepts *)

(** X12.  Building a Create view and creating it goes through exactly when
    the title has at most 200 characters, the description at most 2000 and
    the notes at most 5000, and then the entity returned holds the three
    strings and the status as they were given; otherwise the view is
    refused with a validation error before the store or the clock is
    touched. *)
Theorem submit_validates (w : World) (v : InvestmentIdeaCreate.t) :
  (InvestmentIdeaCreate.valid v ->
   exists r w',
     submit v w = (Return r, w') /\
     InvestmentIdeaRead.title r = InvestmentIdeaCreate.title v /\
     InvestmentIdeaRead.description r = InvestmentIdeaCreate.description v /\
     InvestmentIdeaRead.notes r = InvestmentIdeaCreate.notes v /\
     InvestmentIdeaRead.status r = InvestmentIdeaCreate.status v /\
     length (table w') = S (length (table w))) /\
  (~ InvestmentIdeaCreate.valid v -> submit v w = (Raise ValidationError, w)).
Proof.
  split.
  - intros Hval. unfold submit, bind, construct. rewrite (proj2 (validb_valid v) Hval).
    assert (Hv : heap (with_heap w (heap w ++ [v])) !! length (heap w) = Some v)
      by apply lookup_fresh.
    pose proof (create_eq _ _ _ Hv Hval) as E. simpl in E.
    eexists _, _. split; [exact E|]. simpl. conjs. rewrite length_app. simpl. lia.
  - intros Hn. unfold submit, bind, construct.
    destruct (InvestmentIdeaCreate.validb v) eqn:E; [|reflexivity].
    exfalso. apply Hn, validb_valid, E.
Qed.

Lemma long_idea_valid : InvestmentIdeaCreate.valid long_idea.
Proof.
  apply validb_valid. vm_compute. reflexivity.
Qed.

Lemma submit_validates_witness :
  (exists r w',
     submit long_idea world0 = (Return r, w') /\
     InvestmentIdeaRead.title r = times "A"%char 200 /\
     InvestmentIdeaRead.description r = times "B"%char 2000 /\
     InvestmentIdeaRead.notes r = times "C"%char 5000) /\
  submit (InvestmentIdeaCreate.of_kwargs (times "A"%char 201) Omitted Omitted Omitted Omitted)
    world0 = (Raise ValidationError, world0).
Proof.
  split.
  - destruct (proj1 (submit_validates world0 long_idea) long_idea_valid)
      as (r & w' & E & Ht & Hd & Hn & _).
    exists r, w'. split; [exact E|]. split; [exact Ht|]. split; [exact Hd | exact Hn].
  - apply (proj2 (submit_validates world0 _)).
    intros H. apply validb_valid in H. vm_compute in H. discriminate H.
Defined.

(** * Properties of the page *)

(** ** Status values *)

Lemma of_value_value s : InvestmentStatus_of_value (value s) = Some s.
Proof. destruct s; reflexivity. Qed.

Lemma of_value_inv v s : InvestmentStatus_of_value v = Some s -> value s = v.
Proof.
  unfold InvestmentStatus_of_value. intros H. apply List.find_some in H as [_ H].
  apply String.eqb_eq in H. exact H.
Qed.

(** X13.  The strings the page shows for the statuses read back as the
    statuses they came from, and no other string reads as a status; the
    filter's "All" is not the value of any status, and the options of the
    filter are pairwise different. *)
Theorem status_values_round_trip :
  (forall s, InvestmentStatus_of_value (value s) = Some s) /\
  (forall v s, InvestmentStatus_of_value v = Some s <-> v = value s) /\
  InvestmentStatus_of_value "All" = None /\
  (forall v, In v filter_options <->
             v = "All"%string \/ exists s, InvestmentStatus_of_value v = Some s) /\
  NoDup filter_options.
Proof.
  split; [exact of_value_value|]. split; [|split; [reflexivity|split]].
  - intros v s. split; [intros H; symmetry; apply of_value_inv, H|].
    intros ->. apply of_value_value.
  - intros v. unfold filter_options. simpl. split.
    + intros [<-|[<-|[<-|[<-|[<-|[]]]]]]; [left; reflexivity|right..].
      * exists RESEARCHING. reflexivity.
      * exists WATCHLIST. reflexivity.
      * exists INVESTED. reflexivity.
      * exists REJECTED. reflexivity.
    + intros [->|[s H]]; [left; reflexivity|]. apply of_value_inv in H. subst v.
      destruct s; simpl; tauto.
  - unfold filter_options. simpl.
    repeat (apply NoDup_cons; split;
            [rewrite ?not_elem_of_cons; repeat split; try discriminate; apply not_elem_of_nil|]).
    apply NoDup_nil. trivial.
Qed.

(** ** Saving a new idea from the form *)




(** ** Saving the edit dialog *)

(** An update that sets all five fields to values within their lengths. *)
Lemma update_all_fields (w : World) (idea_id : Z) (old : Row.t)
    (t d : string) (dt : date) (s : InvestmentStatus) (n : string) :
  List.find (has_id idea_id) (table w) = Some old ->
  (String.length t <=? 200)%nat && (String.length d <=? 2000)%nat
    && (String.length n <=? 5000)%nat = true ->
  let row := {| Row.id := Row.id old; Row.title := t; Row.description := d;
                Row.idea_date := dt; Row.status := s; Row.notes := n;
                Row.created_at := Row.created_at old;
                Row.updated_at := utc (clock w (reads w)) |} in
  update_investment_idea idea_id
    (InvestmentIdeaUpdate.mk (Given (Some t)) (Given (Some d)) (Given (Some dt))
       (Given (Some s)) (Given (Some n))) w =
  (Return (Some (read_of_row row)),
   with_table (tick w) (map (fun r => if has_id (Row.id old) r then row else r) (table w))).
Proof.
  intros Hf Hlen row. rewrite (update_eq w idea_id _ old Hf).
  apply andb_true_iff in Hlen as [Hlen Hn]. apply andb_true_iff in Hlen as [Ht Hd].
  apply Nat.leb_le in Ht, Hd, Hn.
  unfold flush, pending; simpl. rewrite !too_long_false by assumption.
  simpl. rewrite andb_false_r. reflexivity.
Qed.


(** ** The delete dialog *)

(** X16.  The delete dialog opens exactly for a stored id, showing the title
    of that idea.  Confirming it then deletes the idea and reports success;
    after that the id is no longer found: asking for the dialog again says
    so, and confirming again reports the failure and changes nothing.  For
    an id that is not stored the dialog does not open. *)
Theorem delete_dialog_flow (w : World) (idea_id : Z) :
  ((idea_id ∈ ids w) ->
   exists old w',
     List.find (has_id idea_id) (table w) = Some old /\
     show_delete_dialog idea_id w = ([OpenDeleteDialog (Row.title old)], w) /\
     confirm_delete idea_id w =
       ([Notify "Investment idea deleted successfully" warning; CloseDialog; Reload], w') /\
     (idea_id ∉ ids w') /\
     show_delete_dialog idea_id w' = ([Notify "Investment idea not found" negative], w') /\
     confirm_delete idea_id w' =
       ([Notify "Failed to delete investment idea" negative], w')) /\
  ((idea_id ∉ ids w) ->
   show_delete_dialog idea_id w = ([Notify "Investment idea not found" negative], w) /\
   show_edit_dialog idea_id w = ([Notify "Investment idea not found" negative], w) /\
   confirm_delete idea_id w = ([Notify "Failed to delete investment idea" negative], w)).
Proof.
  assert (Hmiss : forall w0, (idea_id ∉ ids w0) ->
            show_delete_dialog idea_id w0 = ([Notify "Investment idea not found" negative], w0) /\
            show_edit_dialog idea_id w0 = ([Notify "Investment idea not found" negative], w0) /\
            confirm_delete idea_id w0 = ([Notify "Failed to delete investment idea" negative], w0)).
  { intros w0 Hn. unfold show_delete_dialog, show_edit_dialog, confirm_delete, call.
    rewrite get_by_id_eq, (find_has_id_None _ _ Hn).
    unfold delete_investment_idea, bind, session_get.
    rewrite (find_has_id_None _ _ Hn). auto. }
  split; [|apply Hmiss].
  intros Hin. destruct (find_has_id_Some _ _ Hin) as (old & Hf & Hid & _).
  assert (Hgone : idea_id ∉ ids (with_table w
                    (List.filter (fun r => negb (has_id idea_id r)) (table w)))).
  { unfold ids; simpl. intros Hel. apply list_elem_of_In, in_map_iff in Hel as (r' & Hr' & Hel).
    apply List.filter_In in Hel as [_ Hb].
    apply negb_true_iff, has_id_false in Hb. congruence. }
  destruct (Hmiss _ Hgone) as (H1 & _ & H3).
  eexists old, _. split; [exact Hf|]. split.
  { unfold show_delete_dialog, call. rewrite get_by_id_eq, Hf. reflexivity. }
  split.
  { unfold confirm_delete, call, delete_investment_idea, bind, session_get,
      session_delete_commit. rewrite Hf. simpl. rewrite Hid. reflexivity. }
  auto.
Qed.

Lemma delete_dialog_flow_witness :
  show_delete_dialog 2 world2 = ([OpenDeleteDialog "Watchlist Idea"], world2) /\
  show_delete_dialog 999 world2 = ([Notify "Investment idea not found" negative], world2).
Proof.
  destruct (proj1 (delete_dialog_flow world2 2)) as (old & w' & Hf & Hs & _).
  { right. left. }
  injection Hf as <-. split; [exact Hs|].
  apply (proj2 (delete_dialog_flow world2 999)).
  intros H. apply elem_of_cons in H as [H|H]; [discriminate|].
  apply list_elem_of_singleton in H. discriminate.
Defined.

(** ** The filter *)

Lemma display_cards l : List.filter is_card (display l) = map Card l.
Proof.
  unfold display. destruct l as [|x l]; [reflexivity|].
  cbn [List.filter is_card]. generalize (x :: l). clear.
  induction l as [|y l IH]; simpl; [reflexivity | rewrite IH; reflexivity].
Qed.

(** X17.  [apply_filter] reads and never writes.  On "All" it shows the
    listing of [get_all_investment_ideas]; on the value of a status it shows
    the listing of [get_ideas_by_status] for that status; on anything else
    (no value, or a string that is no option of the filter) it reports the
    error and shows nothing.  What it shows is the container cleared, the
    line "Showing N ideas" with N the length of the listing, then one card
    per entity in the order of the listing, or the empty state when there is
    none. *)
Theorem apply_filter_shows (w : World) :
  (exists all,
     get_all_investment_ideas w = (Return all, w) /\
     apply_filter (Some "All"%string) w = (ClearContainer :: display all, w)) /\
  (forall s, exists l,
     get_ideas_by_status s w = (Return l, w) /\
     apply_filter (Some (value s)) w = (ClearContainer :: display l, w)) /\
  (forall v, ~ In v filter_options ->
     apply_filter (Some v) w =
       ([LogError "Error applying filter: " ValueError;
         NotifyError "Error filtering ideas: " ValueError], w)) /\
  apply_filter None w =
    ([LogError "Error applying filter: " ValueError;
      NotifyError "Error filtering ideas: " ValueError], w) /\
  (forall l,
     List.filter is_card (display l) = map Card l /\
     In (Label ("Showing " +:+ pretty.pretty (length l) +:+ " ideas")) (display l) /\
     (In EmptyState (display l) <-> l = [])).
Proof.
  split; [|split; [|split; [|split]]].
  - eexists. split; [apply get_all_eq|].
    unfold apply_filter. rewrite bool_decide_eq_true_2 by reflexivity.
    unfold call. rewrite get_all_eq. reflexivity.
  - intros s. eexists. split; [apply get_ideas_by_status_eq|].
    unfold apply_filter. rewrite bool_decide_eq_false_2 by (destruct s; discriminate).
    unfold ubind, read_status. rewrite of_value_value. unfold uret, call.
    rewrite get_ideas_by_status_eq. reflexivity.
  - intros v Hv. unfold apply_filter.
    rewrite bool_decide_eq_false_2.
    2:{ intros [= ->]. apply Hv. left. reflexivity. }
    unfold ubind, read_status.
    destruct (InvestmentStatus_of_value v) as [s|] eqn:E; [|reflexivity].
    exfalso. apply Hv. apply of_value_inv in E. subst v. right.
    apply in_map. destruct s; simpl; tauto.
  - reflexivity.
  - intros l. split; [apply display_cards|]. split; [left; reflexivity|].
    unfold display. destruct l as [|x l]; simpl.
    + split; [reflexivity|]. intros _. right. left. reflexivity.
    + split; [|discriminate]. intros [H|[H|H]]; try discriminate.
      apply in_map_iff in H as (y & Hy & _). discriminate.
Qed.

Lemma apply_filter_shows_witness :
  apply_filter (Some "Watchlist"%string) world2 =
    ([ClearContainer; Label "Showing 1 ideas"; Card (read_of_row row2)], world2) /\
  apply_filter (Some "watchlist"%string) world2 =
    ([LogError "Error applying filter: " ValueError;
      NotifyError "Error filtering ideas: " ValueError], world2).
Proof.
  split.
  - destruct (proj1 (proj2 (apply_filter_shows world2)) WATCHLIST) as (l & El & Ea).
    rewrite get_ideas_by_status_eq in El. injection El as <-. exact Ea.
  - apply (proj1 (proj2 (proj2 (apply_filter_shows world2)))).
    unfold filter_options. simpl.
    intros [H|[H|[H|[H|[H|[]]]]]]; discriminate.
Defined.

(** ** Opening the edit dialog and saving it as it is *)

(** X18.  The edit dialog opens for a stored id, filled from the stored
    idea.  Saving it as it was filled goes through and changes nothing of the
    idea but [updated_at], provided the stored title is not empty and is its
    own [strip], the date reads back from its ISO form, and the stored strings
    are within the lengths of the Update view. *)
Theorem edit_dialog_unchanged (strip : string -> string)
    (fromisoformat : string -> option date) (isoformat : date -> string)
    (w : World) (idea_id : Z) (old : Row.t) :
  List.find (has_id idea_id) (table w) = Some old ->
  Row.title old <> ""%string ->
  strip (Row.title old) = Row.title old ->
  isoformat (Row.idea_date old) <> ""%string ->
  fromisoformat (isoformat (Row.idea_date old)) = Some (Row.idea_date old) ->
  (String.length (Row.title old) <= 200)%nat ->
  (String.length (Row.description old) <= 2000)%nat ->
  (String.length (Row.notes old) <= 5000)%nat ->
  let idea := read_of_row old in
  show_edit_dialog idea_id w = ([OpenEditDialog idea], w) /\
  exists w',
    save_changes strip fromisoformat idea_id idea (dialog_title idea)
      (dialog_description idea) (dialog_date isoformat idea) (dialog_status idea)
      (dialog_notes idea) w
    = ([Notify "Investment idea updated successfully!" positive; CloseDialog; Reload], w') /\
    fst (get_investment_idea_by_id idea_id w') =
    Return (Some {| InvestmentIdeaRead.id := Row.id old;
                    InvestmentIdeaRead.title := Row.title old;
                    InvestmentIdeaRead.description := Row.description old;
                    InvestmentIdeaRead.idea_date := Row.idea_date old;
                    InvestmentIdeaRead.status := Row.status old;
                    InvestmentIdeaRead.notes := Row.notes old;
                    InvestmentIdeaRead.created_at := Row.created_at old;
                    InvestmentIdeaRead.updated_at := utc (clock w (reads w)) |}).
Proof.
  intros Hf Hne Hstrip Hiso Hparse Lt Ld Ln idea. subst idea. split.
  { unfold show_edit_dialog, call. rewrite get_by_id_eq, Hf. reflexivity. }
  assert (Hlen : (String.length (Row.title old) <=? 200)%nat
                 && (String.length (Row.description old) <=? 2000)%nat
                 && (String.length (Row.notes old) <=? 5000)%nat = true).
  { rewrite !andb_true_iff, !Nat.leb_le. auto. }
  pose proof (update_all_fields w idea_id old (Row.title old) (Row.description old)
                (Row.idea_date old) (Row.status old) (Row.notes old) Hf Hlen) as Eu.
  simpl in Eu. destruct (find_has_id_inv _ _ _ Hf) as [Hid _].
  eexists. split.
  - unfold save_changes, blank, dialog_title, dialog_description, dialog_date,
      dialog_status, dialog_notes, falsy, or_empty. simpl. rewrite Hstrip.
    rewrite (bool_decide_eq_false_2 _ Hne). simpl.
    unfold ubind, read_date, falsy, or_empty.
    rewrite (bool_decide_eq_false_2 _ Hiso), Hparse.
    unfold uret, read_status. rewrite of_value_value.
    unfold call, InvestmentIdeaUpdate_new, update_validb. simpl. rewrite Hlen.
    unfold ret. rewrite Eu. reflexivity.
  - rewrite get_by_id_eq. unfold with_table. cbn [fst table].
    rewrite <- Hid at 1.
    erewrite find_replace_same; [|reflexivity | rewrite Hid; exact Hf]. reflexivity.
Qed.

Lemma edit_dialog_unchanged_witness :
  show_edit_dialog 3 world3 = ([OpenEditDialog (read_of_row row3)], world3) /\
  exists w',
    save_changes strip_blanks one_day 3 (read_of_row row3)
      (Some "Apple AAPL Analysis"%string) (Some ""%string) (Some "2024-01-15"%string)
      (Some "Watchlist"%string) (Some "P/E"%string) world3
    = ([Notify "Investment idea updated successfully!" positive; CloseDialog; Reload], w') /\
    fst (get_investment_idea_by_id 3 w') =
    Return (Some {| InvestmentIdeaRead.id := 3;
                    InvestmentIdeaRead.title := "Apple AAPL Analysis";
                    InvestmentIdeaRead.description := "";
                    InvestmentIdeaRead.idea_date := 19737;
                    InvestmentIdeaRead.status := WATCHLIST;
                    InvestmentIdeaRead.notes := "P/E";
                    InvestmentIdeaRead.created_at := 1007;
                    InvestmentIdeaRead.updated_at := 1009 |}).
Proof.
  apply (edit_dialog_unchanged strip_blanks one_day one_day_iso world3 3 row3).
  - reflexivity.
  - discriminate.
  - reflexivity.
  - discriminate.
  - reflexivity.
  - simpl. lia.
  - simpl. lia.
  - simpl. lia.
Defined.

(** ** Worked runs of the two forms *)


